(** * physics3d-engine: a shallow embedding of the rigid-body core

    The TypeScript sources ([src/math/Vector3D.ts], [src/math/Quaternion.ts],
    [src/physics/RigidBody.ts], [src/physics/Collision.ts],
    [src/physics/PhysicsWorld.ts]) are translated function by function.

    Modelling conventions.
    - A JavaScript [number] is a real number ([R]): arithmetic is exact, and
      NaN, the infinities and rounding are outside the model.  Comparisons
      [<], [<=], [>], [>=], [===] on numbers are the boolean tests [ltb],
      [leb], [gtb], [geb], [eqb] below.
    - Integer-valued private counters of the world ([maxSubSteps],
      [collisionIterations]) are only ever assigned the literals 5, 8 and 12;
      they are [nat].
    - Rigid bodies are mutable objects shared by the world's registry, by the
      colliders and by collision records.  They live in a store indexed by
      object identity ([Store]); every field assignment of the source is a
      store update and every field read is a store lookup, so aliasing
      (two colliders on one body) behaves as in the source.
    - Colliders are objects too, but no modelled code writes to them: they
      live in a read-only heap ([ColliderHeap]) indexed by identity.
    - [throw] is the [Throw] constructor of [Result].
    - Properties are stated through the source's own guards and expressions
      (comparisons, registry operations, the subtractions the loop of [step]
      performs), not through closed forms that hold of exact arithmetic
      alone. *)

From Stdlib Require Import Reals Lra Lia List ZArith Bool String Arith.
Import ListNotations.
Open Scope R_scope.

(** ** Numbers *)

Module Num.

Definition ltb (a b : R) : bool := if Rlt_dec a b then true else false.
Definition leb (a b : R) : bool := if Rle_dec a b then true else false.
Definition gtb (a b : R) : bool := if Rgt_dec a b then true else false.
Definition geb (a b : R) : bool := if Rge_dec a b then true else false.
Definition eqb (a b : R) : bool := if Req_dec_T a b then true else false.

End Num.

(** Outcome of a call that may [throw]. *)
Inductive Result (A : Type) : Type :=
| Return (a : A)
| Throw (message : string).
Arguments Return {A} a.
Arguments Throw {A} message.

(** ** src/math/Vector3D.ts *)

Module Vector3D.

Record t : Type := mk { x : R; y : R; z : R }.

Definition add (a v : t) : t := mk (x a + x v) (y a + y v) (z a + z v).
Definition subtract (a v : t) : t := mk (x a - x v) (y a - y v) (z a - z v).
Definition multiply (a : t) (scalar : R) : t :=
  mk (x a * scalar) (y a * scalar) (z a * scalar).

Definition divide (a : t) (scalar : R) : Result t :=
  if Num.eqb scalar 0 then Throw "Cannot divide by zero"
  else Return (mk (x a / scalar) (y a / scalar) (z a / scalar)).

Definition dot (a v : t) : R := x a * x v + y a * y v + z a * z v.

Definition cross (a v : t) : t :=
  mk (y a * z v - z a * y v) (z a * x v - x a * z v) (x a * y v - y a * x v).

Definition magnitude (a : t) : R := sqrt (x a * x a + y a * y a + z a * z a).
Definition magnitudeSquared (a : t) : R := x a * x a + y a * y a + z a * z a.

Definition normalize (a : t) : Result t :=
  let mag := magnitude a in
  if Num.eqb mag 0 then Return (mk 0 0 0) else divide a mag.

Definition distanceTo (a v : t) : R := magnitude (subtract a v).

Definition zero : t := mk 0 0 0.

Definition lerp (a v : t) (t0 : R) : t := add a (multiply (subtract v a) t0).

(** [equals(v, epsilon)]; the source's default for [epsilon] is [1e-6]. *)
Definition equals (a v : t) (epsilon : R) : bool :=
  Num.ltb (Rabs (x a - x v)) epsilon &&
  Num.ltb (Rabs (y a - y v)) epsilon &&
  Num.ltb (Rabs (z a - z v)) epsilon.

(** [normalize] guards its only call of [divide] with [mag === 0], so it
    never throws (lemma [normalize_returns] below).  Callers use the value. *)
Definition normalize_val (a : t) : t :=
  match normalize a with
  | Return v => v
  | Throw _ => a
  end.

End Vector3D.

(** ** src/math/Quaternion.ts *)

Module Quaternion.

Record t : Type := mk { w : R; x : R; y : R; z : R }.

Definition multiply (a q : t) : t :=
  mk (w a * w q - x a * x q - y a * y q - z a * z q)
     (w a * x q + x a * w q + y a * z q - z a * y q)
     (w a * y q - x a * z q + y a * w q + z a * x q)
     (w a * z q + x a * y q - y a * x q + z a * w q).

Definition magnitude (a : t) : R :=
  sqrt (w a * w a + x a * x a + y a * y a + z a * z a).

Definition normalize (a : t) : t :=
  let mag := magnitude a in
  if Num.eqb mag 0 then mk 1 0 0 0
  else mk (w a / mag) (x a / mag) (y a / mag) (z a / mag).

Definition conjugate (a : t) : t := mk (w a) (- x a) (- y a) (- z a).

Definition rotateVector (a : t) (v : Vector3D.t) : Vector3D.t :=
  let qv := mk 0 (Vector3D.x v) (Vector3D.y v) (Vector3D.z v) in
  let result := multiply (multiply a qv) (conjugate a) in
  Vector3D.mk (x result) (y result) (z result).

(** [toMatrix3]: the nine entries, row by row. *)
Definition toMatrix3 (a : t) : list R :=
  let w := w a in let x := x a in let y := y a in let z := z a in
  [1 - 2 * (y * y + z * z); 2 * (x * y - w * z); 2 * (x * z + w * y);
   2 * (x * y + w * z); 1 - 2 * (x * x + z * z); 2 * (y * z - w * x);
   2 * (x * z - w * y); 2 * (y * z + w * x); 1 - 2 * (x * x + y * y)].

Definition fromAxisAngle (axis : Vector3D.t) (angle : R) : t :=
  let halfAngle := angle * 0.5 in
  let sin := sin halfAngle in
  let normalized := Vector3D.normalize_val axis in
  mk (cos halfAngle)
     (Vector3D.x normalized * sin)
     (Vector3D.y normalized * sin)
     (Vector3D.z normalized * sin).

Definition fromEuler (ex ey ez : R) : t :=
  let cx := cos (ex * 0.5) in
  let sx := sin (ex * 0.5) in
  let cy := cos (ey * 0.5) in
  let sy := sin (ey * 0.5) in
  let cz := cos (ez * 0.5) in
  let sz := sin (ez * 0.5) in
  mk (cx * cy * cz + sx * sy * sz)
     (sx * cy * cz - cx * sy * sz)
     (cx * sy * cz + sx * cy * sz)
     (cx * cy * sz - sx * sy * cz).

Definition identity : t := mk 1 0 0 0.

End Quaternion.

(** ** src/physics/RigidBody.ts *)

Module RigidBody.

Record t : Type := mk {
  position : Vector3D.t;
  velocity : Vector3D.t;
  acceleration : Vector3D.t;
  rotation : Quaternion.t;
  angularVelocity : Vector3D.t;
  angularAcceleration : Vector3D.t;
  mass : R;
  inverseMass : R;
  restitution : R;
  friction : R;
  drag : R;
  angularDrag : R;
  isStatic : bool;
  isKinematic : bool;
  useGravity : bool;
  forces : list Vector3D.t;
  torques : list Vector3D.t
}.

(** Field assignments [this.f = v]. *)
Definition set_position (b : t) (v : Vector3D.t) : t :=
  mk v (velocity b) (acceleration b) (rotation b) (angularVelocity b)
     (angularAcceleration b) (mass b) (inverseMass b) (restitution b)
     (friction b) (drag b) (angularDrag b) (isStatic b) (isKinematic b)
     (useGravity b) (forces b) (torques b).
Definition set_velocity (b : t) (v : Vector3D.t) : t :=
  mk (position b) v (acceleration b) (rotation b) (angularVelocity b)
     (angularAcceleration b) (mass b) (inverseMass b) (restitution b)
     (friction b) (drag b) (angularDrag b) (isStatic b) (isKinematic b)
     (useGravity b) (forces b) (torques b).
Definition set_acceleration (b : t) (v : Vector3D.t) : t :=
  mk (position b) (velocity b) v (rotation b) (angularVelocity b)
     (angularAcceleration b) (mass b) (inverseMass b) (restitution b)
     (friction b) (drag b) (angularDrag b) (isStatic b) (isKinematic b)
     (useGravity b) (forces b) (torques b).
Definition set_rotation (b : t) (v : Quaternion.t) : t :=
  mk (position b) (velocity b) (acceleration b) v (angularVelocity b)
     (angularAcceleration b) (mass b) (inverseMass b) (restitution b)
     (friction b) (drag b) (angularDrag b) (isStatic b) (isKinematic b)
     (useGravity b) (forces b) (torques b).
Definition set_angularVelocity (b : t) (v : Vector3D.t) : t :=
  mk (position b) (velocity b) (acceleration b) (rotation b) v
     (angularAcceleration b) (mass b) (inverseMass b) (restitution b)
     (friction b) (drag b) (angularDrag b) (isStatic b) (isKinematic b)
     (useGravity b) (forces b) (torques b).
Definition set_angularAcceleration (b : t) (v : Vector3D.t) : t :=
  mk (position b) (velocity b) (acceleration b) (rotation b)
     (angularVelocity b) v (mass b) (inverseMass b) (restitution b)
     (friction b) (drag b) (angularDrag b) (isStatic b) (isKinematic b)
     (useGravity b) (forces b) (torques b).
Definition set_mass (b : t) (v : R) : t :=
  mk (position b) (velocity b) (acceleration b) (rotation b)
     (angularVelocity b) (angularAcceleration b) v (inverseMass b)
     (restitution b) (friction b) (drag b) (angularDrag b) (isStatic b)
     (isKinematic b) (useGravity b) (forces b) (torques b).
Definition set_inverseMass (b : t) (v : R) : t :=
  mk (position b) (velocity b) (acceleration b) (rotation b)
     (angularVelocity b) (angularAcceleration b) (mass b) v (restitution b)
     (friction b) (drag b) (angularDrag b) (isStatic b) (isKinematic b)
     (useGravity b) (forces b) (torques b).
Definition set_isStatic (b : t) (v : bool) : t :=
  mk (position b) (velocity b) (acceleration b) (rotation b)
     (angularVelocity b) (angularAcceleration b) (mass b) (inverseMass b)
     (restitution b) (friction b) (drag b) (angularDrag b) v (isKinematic b)
     (useGravity b) (forces b) (torques b).
Definition set_isKinematic (b : t) (v : bool) : t :=
  mk (position b) (velocity b) (acceleration b) (rotation b)
     (angularVelocity b) (angularAcceleration b) (mass b) (inverseMass b)
     (restitution b) (friction b) (drag b) (angularDrag b) (isStatic b) v
     (useGravity b) (forces b) (torques b).
Definition set_forces (b : t) (v : list Vector3D.t) : t :=
  mk (position b) (velocity b) (acceleration b) (rotation b)
     (angularVelocity b) (angularAcceleration b) (mass b) (inverseMass b)
     (restitution b) (friction b) (drag b) (angularDrag b) (isStatic b)
     (isKinematic b) (useGravity b) v (torques b).
Definition set_torques (b : t) (v : list Vector3D.t) : t :=
  mk (position b) (velocity b) (acceleration b) (rotation b)
     (angularVelocity b) (angularAcceleration b) (mass b) (inverseMass b)
     (restitution b) (friction b) (drag b) (angularDrag b) (isStatic b)
     (isKinematic b) (useGravity b) (forces b) v.

(** [new RigidBody(mass, position)]. *)
Definition new (mass : R) (position : Vector3D.t) : t :=
  mk position Vector3D.zero Vector3D.zero Quaternion.identity
     Vector3D.zero Vector3D.zero
     mass (if Num.gtb mass 0 then 1 / mass else 0)
     0.6 0.5 0.01 0.05
     false false true
     [] [].

Definition addForce (b : t) (force : Vector3D.t) : t :=
  if isStatic b then b
  else set_forces b (forces b ++ [force]).

Definition addTorque (b : t) (torque : Vector3D.t) : t :=
  if isStatic b then b
  else set_torques b (torques b ++ [torque]).

Definition addForceAtPoint (b : t) (force point : Vector3D.t) : t :=
  if isStatic b then b
  else
    let b := addForce b force in
    let r := Vector3D.subtract point (position b) in
    let torque := Vector3D.cross r force in
    addTorque b torque.

Definition setMass (b : t) (m : R) : t :=
  let b := set_mass b m in
  let b := set_inverseMass b (if Num.gtb m 0 then 1 / m else 0) in
  if Num.eqb m 0 then set_isStatic b true else b.

Definition makeStatic (b : t) : t :=
  let b := set_isStatic b true in
  let b := set_inverseMass b 0 in
  let b := set_velocity b Vector3D.zero in
  set_angularVelocity b Vector3D.zero.

Definition makeKinematic (b : t) : t :=
  let b := set_isKinematic b true in
  set_inverseMass b 0.

Definition makeDynamic (b : t) (m : R) : t :=
  let b := set_isStatic b false in
  let b := set_isKinematic b false in
  setMass b m.

(** The two accumulation loops of [integrate]:
    [let net = Vector3D.zero(); for (const f of fs) net = net.add(f)]. *)
Definition sumVectors (fs : list Vector3D.t) : Vector3D.t :=
  fold_left Vector3D.add fs Vector3D.zero.

Definition integrate (b : t) (deltaTime : R) : t :=
  if isStatic b then b
  else
    let netForce := sumVectors (forces b) in
    let netTorque := sumVectors (torques b) in
    let b :=
      if negb (isKinematic b) then
        let dragForce :=
          Vector3D.multiply (velocity b)
            (- drag b * Vector3D.magnitude (velocity b)) in
        let netForce := Vector3D.add netForce dragForce in
        let angularDragTorque :=
          Vector3D.multiply (angularVelocity b)
            (- angularDrag b * Vector3D.magnitude (angularVelocity b)) in
        let netTorque := Vector3D.add netTorque angularDragTorque in
        let b := set_acceleration b (Vector3D.multiply netForce (inverseMass b)) in
        set_angularAcceleration b (Vector3D.multiply netTorque (inverseMass b))
      else b in
    let b :=
      set_velocity b
        (Vector3D.add (velocity b) (Vector3D.multiply (acceleration b) deltaTime)) in
    let b :=
      set_angularVelocity b
        (Vector3D.add (angularVelocity b)
           (Vector3D.multiply (angularAcceleration b) deltaTime)) in
    let b :=
      set_position b
        (Vector3D.add (position b) (Vector3D.multiply (velocity b) deltaTime)) in
    let b :=
      if Num.gtb (Vector3D.magnitude (angularVelocity b)) 0 then
        let angle := Vector3D.magnitude (angularVelocity b) * deltaTime in
        let axis := Vector3D.normalize_val (angularVelocity b) in
        let deltaRotation := Quaternion.fromAxisAngle axis angle in
        set_rotation b
          (Quaternion.normalize (Quaternion.multiply (rotation b) deltaRotation))
      else b in
    let b := set_forces b [] in
    set_torques b [].

Definition set_restitution (b : t) (v : R) : t :=
  mk (position b) (velocity b) (acceleration b) (rotation b)
     (angularVelocity b) (angularAcceleration b) (mass b) (inverseMass b) v
     (friction b) (drag b) (angularDrag b) (isStatic b) (isKinematic b)
     (useGravity b) (forces b) (torques b).
Definition set_friction (b : t) (v : R) : t :=
  mk (position b) (velocity b) (acceleration b) (rotation b)
     (angularVelocity b) (angularAcceleration b) (mass b) (inverseMass b)
     (restitution b) v (drag b) (angularDrag b) (isStatic b) (isKinematic b)
     (useGravity b) (forces b) (torques b).
Definition set_drag (b : t) (v : R) : t :=
  mk (position b) (velocity b) (acceleration b) (rotation b)
     (angularVelocity b) (angularAcceleration b) (mass b) (inverseMass b)
     (restitution b) (friction b) v (angularDrag b) (isStatic b)
     (isKinematic b) (useGravity b) (forces b) (torques b).
Definition set_angularDrag (b : t) (v : R) : t :=
  mk (position b) (velocity b) (acceleration b) (rotation b)
     (angularVelocity b) (angularAcceleration b) (mass b) (inverseMass b)
     (restitution b) (friction b) (drag b) v (isStatic b) (isKinematic b)
     (useGravity b) (forces b) (torques b).
Definition set_useGravity (b : t) (v : bool) : t :=
  mk (position b) (velocity b) (acceleration b) (rotation b)
     (angularVelocity b) (angularAcceleration b) (mass b) (inverseMass b)
     (restitution b) (friction b) (drag b) (angularDrag b) (isStatic b)
     (isKinematic b) v (forces b) (torques b).

Definition getKineticEnergy (b : t) : R :=
  let translational := 0.5 * mass b * Vector3D.magnitudeSquared (velocity b) in
  let rotational := 0.5 * mass b * Vector3D.magnitudeSquared (angularVelocity b) in
  translational + rotational.

Definition getMomentum (b : t) : Vector3D.t := Vector3D.multiply (velocity b) (mass b).

Definition setPosition (b : t) (p : Vector3D.t) : t := set_position b p.

Definition setRotation (b : t) (q : Quaternion.t) : t := set_rotation b q.

(** [clone()]: a new body built by the constructor from [mass] and
    [position], onto which the other public fields are copied. *)
Definition clone (b : t) : t :=
  let rb := new (mass b) (position b) in
  let rb := set_velocity rb (velocity b) in
  let rb := set_acceleration rb (acceleration b) in
  let rb := set_rotation rb (rotation b) in
  let rb := set_angularVelocity rb (angularVelocity b) in
  let rb := set_angularAcceleration rb (angularAcceleration b) in
  let rb := set_restitution rb (restitution b) in
  let rb := set_friction rb (friction b) in
  let rb := set_drag rb (drag b) in
  let rb := set_angularDrag rb (angularDrag b) in
  let rb := set_isStatic rb (isStatic b) in
  let rb := set_isKinematic rb (isKinematic b) in
  set_useGravity rb (useGravity b).

End RigidBody.

(** ** The object store *)

(** Identity of a [RigidBody] object and the store of all of them. *)
Definition BodyRef := nat.
Definition Store := BodyRef -> RigidBody.t.

(** [s [r := b]]: the object at [r] now holds [b]. *)
Definition upd (s : Store) (r : BodyRef) (b : RigidBody.t) : Store :=
  fun r' => if Nat.eqb r' r then b else s r'.

(** ** src/physics/Collision.ts *)

Module AABB.

Record t : Type := mk { min : Vector3D.t; max : Vector3D.t }.

Definition intersects (a other : t) : bool :=
  Num.leb (Vector3D.x (min a)) (Vector3D.x (max other)) &&
  Num.geb (Vector3D.x (max a)) (Vector3D.x (min other)) &&
  Num.leb (Vector3D.y (min a)) (Vector3D.y (max other)) &&
  Num.geb (Vector3D.y (max a)) (Vector3D.y (min other)) &&
  Num.leb (Vector3D.z (min a)) (Vector3D.z (max other)) &&
  Num.geb (Vector3D.z (max a)) (Vector3D.z (min other)).

Definition containsPoint (a : t) (point : Vector3D.t) : bool :=
  Num.geb (Vector3D.x point) (Vector3D.x (min a)) &&
  Num.leb (Vector3D.x point) (Vector3D.x (max a)) &&
  Num.geb (Vector3D.y point) (Vector3D.y (min a)) &&
  Num.leb (Vector3D.y point) (Vector3D.y (max a)) &&
  Num.geb (Vector3D.z point) (Vector3D.z (min a)) &&
  Num.leb (Vector3D.z point) (Vector3D.z (max a)).

Definition getCenter (a : t) : Vector3D.t :=
  Vector3D.multiply (Vector3D.add (min a) (max a)) 0.5.

Definition getSize (a : t) : Vector3D.t := Vector3D.subtract (max a) (min a).

Definition expand (a : t) (amount : R) : t :=
  let expansion := Vector3D.mk amount amount amount in
  mk (Vector3D.subtract (min a) expansion) (Vector3D.add (max a) expansion).

End AABB.

(** The [Collision] interface: a contact record holding two body references. *)
Module Collision.

Record t : Type := mk {
  bodyA : BodyRef;
  bodyB : BodyRef;
  contactPoint : Vector3D.t;
  contactNormal : Vector3D.t;
  penetrationDepth : R
}.

End Collision.

Module Collider.

(** The two subclasses of the abstract [Collider]. *)
Inductive Shape : Type :=
| Box (size : Vector3D.t)
| Sphere (radius : R).

Record t : Type := mk {
  rigidbody : BodyRef;
  isTrigger : bool;
  shape : Shape
}.

(** [new BoxCollider(rigidbody, size)] and [new SphereCollider(rigidbody, radius)]. *)
Definition newBox (rigidbody : BodyRef) (size : Vector3D.t) : t :=
  mk rigidbody false (Box size).
Definition newSphere (rigidbody : BodyRef) (radius : R) : t :=
  mk rigidbody false (Sphere radius).

(** [BoxCollider.getAABB] *)
Definition boxAABB (s : Store) (rigidbody : BodyRef) (size : Vector3D.t) : AABB.t :=
  let halfSize := Vector3D.multiply size 0.5 in
  AABB.mk (Vector3D.subtract (RigidBody.position (s rigidbody)) halfSize)
          (Vector3D.add (RigidBody.position (s rigidbody)) halfSize).

(** [SphereCollider.getAABB] *)
Definition sphereAABB (s : Store) (rigidbody : BodyRef) (radius : R) : AABB.t :=
  let radiusVec := Vector3D.mk radius radius radius in
  AABB.mk (Vector3D.subtract (RigidBody.position (s rigidbody)) radiusVec)
          (Vector3D.add (RigidBody.position (s rigidbody)) radiusVec).

Definition getAABB (s : Store) (c : t) : AABB.t :=
  match shape c with
  | Box size => boxAABB s (rigidbody c) size
  | Sphere radius => sphereAABB s (rigidbody c) radius
  end.

(** [BoxCollider.checkBoxCollision]; [this] is a box of size [size],
    [other] a box of size [osize]. *)
Definition checkBoxCollision (s : Store)
    (this : BodyRef) (size : Vector3D.t) (other : BodyRef) (osize : Vector3D.t)
    : option Collision.t :=
  let aabb1 := boxAABB s this size in
  let aabb2 := boxAABB s other osize in
  if negb (AABB.intersects aabb1 aabb2) then None
  else
    let overlap :=
      Vector3D.mk
        (Rmin (Vector3D.x (AABB.max aabb1)) (Vector3D.x (AABB.max aabb2))
         - Rmax (Vector3D.x (AABB.min aabb1)) (Vector3D.x (AABB.min aabb2)))
        (Rmin (Vector3D.y (AABB.max aabb1)) (Vector3D.y (AABB.max aabb2))
         - Rmax (Vector3D.y (AABB.min aabb1)) (Vector3D.y (AABB.min aabb2)))
        (Rmin (Vector3D.z (AABB.max aabb1)) (Vector3D.z (AABB.max aabb2))
         - Rmax (Vector3D.z (AABB.min aabb1)) (Vector3D.z (AABB.min aabb2))) in
    let minOverlap := Vector3D.x overlap in
    let normal := Vector3D.mk 1 0 0 in
    let '(minOverlap, normal) :=
      if Num.ltb (Vector3D.y overlap) minOverlap
      then (Vector3D.y overlap, Vector3D.mk 0 1 0)
      else (minOverlap, normal) in
    let '(minOverlap, normal) :=
      if Num.ltb (Vector3D.z overlap) minOverlap
      then (Vector3D.z overlap, Vector3D.mk 0 0 1)
      else (minOverlap, normal) in
    let direction :=
      Vector3D.subtract (RigidBody.position (s other)) (RigidBody.position (s this)) in
    let normal :=
      if Num.ltb (Vector3D.dot normal direction) 0
      then Vector3D.multiply normal (-1)
      else normal in
    let contactPoint :=
      Vector3D.multiply
        (Vector3D.add (RigidBody.position (s this)) (RigidBody.position (s other)))
        0.5 in
    Some (Collision.mk this other contactPoint normal minOverlap).

(** The closest point of [BoxCollider.checkSphereCollision]: the sphere
    centre clamped into the box's world AABB. *)
Definition closestPoint (aabb : AABB.t) (sphereCenter : Vector3D.t) : Vector3D.t :=
  Vector3D.mk
    (Rmax (Vector3D.x (AABB.min aabb)) (Rmin (Vector3D.x sphereCenter) (Vector3D.x (AABB.max aabb))))
    (Rmax (Vector3D.y (AABB.min aabb)) (Rmin (Vector3D.y sphereCenter) (Vector3D.y (AABB.max aabb))))
    (Rmax (Vector3D.z (AABB.min aabb)) (Rmin (Vector3D.z sphereCenter) (Vector3D.z (AABB.max aabb)))).

(** [BoxCollider.checkSphereCollision]; [this] is a box of size [size],
    [sphere] a sphere of radius [radius]. *)
Definition boxCheckSphereCollision (s : Store)
    (this : BodyRef) (size : Vector3D.t) (sphere : BodyRef) (radius : R)
    : option Collision.t :=
  let aabb := boxAABB s this size in
  let sphereCenter := RigidBody.position (s sphere) in
  let closestPoint := closestPoint aabb sphereCenter in
  let distance := Vector3D.distanceTo sphereCenter closestPoint in
  if Num.gtb distance radius then None
  else
    let normal :=
      Vector3D.normalize_val (Vector3D.subtract sphereCenter closestPoint) in
    let penetrationDepth := radius - distance in
    Some (Collision.mk this sphere closestPoint normal penetrationDepth).

(** [SphereCollider.checkSphereCollision] *)
Definition sphereCheckSphereCollision (s : Store)
    (this : BodyRef) (radius : R) (other : BodyRef) (oradius : R)
    : option Collision.t :=
  let distance :=
    Vector3D.distanceTo (RigidBody.position (s this)) (RigidBody.position (s other)) in
  let totalRadius := radius + oradius in
  if Num.geb distance totalRadius then None
  else
    let normal :=
      Vector3D.normalize_val
        (Vector3D.subtract (RigidBody.position (s other)) (RigidBody.position (s this))) in
    let penetrationDepth := totalRadius - distance in
    let contactPoint :=
      Vector3D.add (RigidBody.position (s this))
        (Vector3D.multiply normal (radius - penetrationDepth * 0.5)) in
    Some (Collision.mk this other contactPoint normal penetrationDepth).

(** [checkCollision], dispatched on the class of [this] and then, by
    [instanceof], on the class of [other]. *)
Definition checkCollision (s : Store) (this other : t) : option Collision.t :=
  match shape this, shape other with
  | Box size, Box osize =>
      checkBoxCollision s (rigidbody this) size (rigidbody other) osize
  | Box size, Sphere radius =>
      boxCheckSphereCollision s (rigidbody this) size (rigidbody other) radius
  | Sphere radius, Sphere oradius =>
      sphereCheckSphereCollision s (rigidbody this) radius (rigidbody other) oradius
  | Sphere radius, Box osize =>
      match boxCheckSphereCollision s (rigidbody other) osize (rigidbody this) radius with
      | Some collision =>
          Some (Collision.mk (Collision.bodyB collision) (Collision.bodyA collision)
                  (Collision.contactPoint collision)
                  (Vector3D.multiply (Collision.contactNormal collision) (-1))
                  (Collision.penetrationDepth collision))
      | None => None
      end
  end.

End Collider.

(** Identity of a [Collider] object and the read-only heap of all of them. *)
Definition ColliderRef := nat.
Definition ColliderHeap := ColliderRef -> Collider.t.

(** ** src/physics/PhysicsWorld.ts *)

Module PhysicsWorld.

Record t : Type := mk {
  gravity : Vector3D.t;
  rigidbodies : list BodyRef;
  colliders : list ColliderRef;
  collisions : list Collision.t;
  timeStep : R;
  maxSubSteps : nat;
  accumulator : R;
  collisionIterations : nat;
  maxObjectsPerFrame : R
}.

Definition set_gravity (w : t) (v : Vector3D.t) : t :=
  mk v (rigidbodies w) (colliders w) (collisions w) (timeStep w) (maxSubSteps w)
     (accumulator w) (collisionIterations w) (maxObjectsPerFrame w).
Definition set_rigidbodies (w : t) (v : list BodyRef) : t :=
  mk (gravity w) v (colliders w) (collisions w) (timeStep w) (maxSubSteps w)
     (accumulator w) (collisionIterations w) (maxObjectsPerFrame w).
Definition set_colliders (w : t) (v : list ColliderRef) : t :=
  mk (gravity w) (rigidbodies w) v (collisions w) (timeStep w) (maxSubSteps w)
     (accumulator w) (collisionIterations w) (maxObjectsPerFrame w).
Definition set_collisions (w : t) (v : list Collision.t) : t :=
  mk (gravity w) (rigidbodies w) (colliders w) v (timeStep w) (maxSubSteps w)
     (accumulator w) (collisionIterations w) (maxObjectsPerFrame w).
Definition set_timeStep (w : t) (v : R) : t :=
  mk (gravity w) (rigidbodies w) (colliders w) (collisions w) v (maxSubSteps w)
     (accumulator w) (collisionIterations w) (maxObjectsPerFrame w).
Definition set_maxSubSteps (w : t) (v : nat) : t :=
  mk (gravity w) (rigidbodies w) (colliders w) (collisions w) (timeStep w) v
     (accumulator w) (collisionIterations w) (maxObjectsPerFrame w).
Definition set_accumulator (w : t) (v : R) : t :=
  mk (gravity w) (rigidbodies w) (colliders w) (collisions w) (timeStep w)
     (maxSubSteps w) v (collisionIterations w) (maxObjectsPerFrame w).
Definition set_collisionIterations (w : t) (v : nat) : t :=
  mk (gravity w) (rigidbodies w) (colliders w) (collisions w) (timeStep w)
     (maxSubSteps w) (accumulator w) v (maxObjectsPerFrame w).
Definition set_maxObjectsPerFrame (w : t) (v : R) : t :=
  mk (gravity w) (rigidbodies w) (colliders w) (collisions w) (timeStep w)
     (maxSubSteps w) (accumulator w) (collisionIterations w) v.

(** [new PhysicsWorld()] *)
Definition new : t :=
  mk (Vector3D.mk 0 9.81 0) [] [] [] (1 / 60) 5 0 8 200.

(** [Array.prototype.includes] on an array of object references. *)
Definition includes (l : list nat) (r : nat) : bool := existsb (Nat.eqb r) l.

(** [l.indexOf(r)] followed by [l.splice(index, 1)] when found:
    the first occurrence is removed. *)
Fixpoint removeFirst (l : list nat) (r : nat) : list nat :=
  match l with
  | [] => []
  | h :: tl => if Nat.eqb h r then tl else h :: removeFirst tl r
  end.

Definition addRigidBody (w : t) (rigidbody : BodyRef) : t :=
  if negb (includes (rigidbodies w) rigidbody)
  then set_rigidbodies w (rigidbodies w ++ [rigidbody])
  else w.

Definition removeRigidBody (w : t) (rigidbody : BodyRef) : t :=
  set_rigidbodies w (removeFirst (rigidbodies w) rigidbody).

Definition removeCollider (w : t) (collider : ColliderRef) : t :=
  set_colliders w (removeFirst (colliders w) collider).

Definition setGravity (w : t) (gravity : Vector3D.t) : t := set_gravity w gravity.

Definition configureDenseScene (w : t) (enable : bool) : t :=
  if enable then
    let w := set_collisionIterations w 12 in
    let w := set_timeStep w (1 / 120) in
    set_maxSubSteps w 8
  else
    let w := set_collisionIterations w 8 in
    let w := set_timeStep w (1 / 60) in
    set_maxSubSteps w 5.

Definition setMaxObjects (w : t) (limit : R) : t :=
  set_maxObjectsPerFrame w (Rmax 10 limit).

Definition clear (w : t) : t :=
  let w := set_rigidbodies w [] in
  let w := set_colliders w [] in
  set_collisions w [].

Section WithColliders.

(** The collider objects; none of the code below writes to them. *)
Variable heap : ColliderHeap.

(** [console.warn] is a diagnostic only; the rejected call returns normally. *)
Definition addCollider (w : t) (collider : ColliderRef) : t :=
  if negb (includes (colliders w) collider) then
    if Num.geb (INR (List.length (colliders w))) (maxObjectsPerFrame w) then w
    else
      let w := set_colliders w (colliders w ++ [collider]) in
      addRigidBody w (Collider.rigidbody (heap collider))
  else w.

(** One round of the loop of [applyGravity]. *)
Definition applyGravityTo (w : t) (s : Store) (rigidbody : BodyRef) : Store :=
  if RigidBody.useGravity (s rigidbody)
     && negb (RigidBody.isStatic (s rigidbody))
     && negb (RigidBody.isKinematic (s rigidbody))
  then
    let gravityForce := Vector3D.multiply (gravity w) (RigidBody.mass (s rigidbody)) in
    upd s rigidbody (RigidBody.addForce (s rigidbody) gravityForce)
  else s.

Definition applyGravity (w : t) (s : Store) : Store :=
  fold_left (applyGravityTo w) (rigidbodies w) s.

(** The loop [for (const rigidbody of this.rigidbodies) rigidbody.integrate(dt)]. *)
Definition integrateAll (w : t) (deltaTime : R) (s : Store) : Store :=
  fold_left (fun s rigidbody => upd s rigidbody (RigidBody.integrate (s rigidbody) deltaTime))
            (rigidbodies w) s.

(** The body of the inner loop of [detectCollisions] for the pair
    [colliders[i]], [colliders[j]]: the collisions it pushes. *)
Definition detectPair (s : Store) (a b : ColliderRef) : list Collision.t :=
  let colliderA := heap a in
  let colliderB := heap b in
  if RigidBody.isStatic (s (Collider.rigidbody colliderA))
     && RigidBody.isStatic (s (Collider.rigidbody colliderB))
  then []
  else
    let aabbA := AABB.expand (Collider.getAABB s colliderA) 0.01 in
    let aabbB := AABB.expand (Collider.getAABB s colliderB) 0.01 in
    if negb (AABB.intersects aabbA aabbB) then []
    else
      match Collider.checkCollision s colliderA colliderB with
      | Some collision =>
          if Num.gtb (Collision.penetrationDepth collision) 0.001
          then [collision] else []
      | None => []
      end.

(** The two nested loops over [i < j], in push order. *)
Fixpoint detectFrom (s : Store) (cs : list ColliderRef) : list Collision.t :=
  match cs with
  | [] => []
  | a :: rest => flat_map (detectPair s a) rest ++ detectFrom s rest
  end.

Definition detectCollisions (w : t) (s : Store) : t :=
  set_collisions w (detectFrom s (colliders w)).

Definition separateObjects (s : Store) (bodyA bodyB : BodyRef)
    (normal : Vector3D.t) (penetration : R) : Store :=
  let totalInverseMass :=
    RigidBody.inverseMass (s bodyA) + RigidBody.inverseMass (s bodyB) in
  if Num.eqb totalInverseMass 0 then s
  else
    let separationPercent := 0.9 in
    let slop := 0.005 in
    let correctionMagnitude :=
      Rmax (penetration - slop) 0 / totalInverseMass * separationPercent in
    let correction := Vector3D.multiply normal correctionMagnitude in
    let s :=
      if negb (RigidBody.isStatic (s bodyA)) then
        upd s bodyA
          (RigidBody.set_position (s bodyA)
             (Vector3D.subtract (RigidBody.position (s bodyA))
                (Vector3D.multiply correction (RigidBody.inverseMass (s bodyA)))))
      else s in
    if negb (RigidBody.isStatic (s bodyB)) then
      upd s bodyB
        (RigidBody.set_position (s bodyB)
           (Vector3D.add (RigidBody.position (s bodyB))
              (Vector3D.multiply correction (RigidBody.inverseMass (s bodyB)))))
    else s.

Definition applyFriction (s : Store) (bodyA bodyB : BodyRef)
    (normal relativeVelocity : Vector3D.t) (normalImpulse : R) : Store :=
  let tangent :=
    Vector3D.subtract relativeVelocity
      (Vector3D.multiply normal (Vector3D.dot relativeVelocity normal)) in
  if Num.ltb (Vector3D.magnitude tangent) 1e-6 then s
  else
    let tangentDirection := Vector3D.normalize_val tangent in
    let friction :=
      sqrt (RigidBody.friction (s bodyA) * RigidBody.friction (s bodyB)) in
    let frictionImpulse := - Vector3D.dot relativeVelocity tangentDirection in
    let frictionImpulse :=
      frictionImpulse / (RigidBody.inverseMass (s bodyA) + RigidBody.inverseMass (s bodyB)) in
    let maxFriction := Rabs normalImpulse * friction in
    let frictionImpulse := Rmax (- maxFriction) (Rmin frictionImpulse maxFriction) in
    let frictionVector := Vector3D.multiply tangentDirection frictionImpulse in
    let s :=
      if negb (RigidBody.isStatic (s bodyA)) then
        upd s bodyA
          (RigidBody.set_velocity (s bodyA)
             (Vector3D.subtract (RigidBody.velocity (s bodyA))
                (Vector3D.multiply frictionVector (RigidBody.inverseMass (s bodyA)))))
      else s in
    if negb (RigidBody.isStatic (s bodyB)) then
      upd s bodyB
        (RigidBody.set_velocity (s bodyB)
           (Vector3D.add (RigidBody.velocity (s bodyB))
              (Vector3D.multiply frictionVector (RigidBody.inverseMass (s bodyB)))))
    else s.

(** [resolveCollision] returns its boolean together with the updated store. *)
Definition resolveCollision (s : Store) (collision : Collision.t) : bool * Store :=
  let bodyA := Collision.bodyA collision in
  let bodyB := Collision.bodyB collision in
  let contactNormal := Collision.contactNormal collision in
  let penetrationDepth := Collision.penetrationDepth collision in
  if RigidBody.isStatic (s bodyA) && RigidBody.isStatic (s bodyB) then (false, s)
  else if Num.leb penetrationDepth 0.001 then (false, s)
  else
    let s := separateObjects s bodyA bodyB contactNormal penetrationDepth in
    let relativeVelocity :=
      Vector3D.subtract (RigidBody.velocity (s bodyB)) (RigidBody.velocity (s bodyA)) in
    let velocityAlongNormal := Vector3D.dot relativeVelocity contactNormal in
    if Num.gtb velocityAlongNormal 0 then (false, s)
    else
      let restitution :=
        Rmin (RigidBody.restitution (s bodyA)) (RigidBody.restitution (s bodyB)) in
      let j := - (1 + restitution) * velocityAlongNormal in
      let j := j / (RigidBody.inverseMass (s bodyA) + RigidBody.inverseMass (s bodyB)) in
      let impulse := Vector3D.multiply contactNormal j in
      let s :=
        if negb (RigidBody.isStatic (s bodyA)) then
          upd s bodyA
            (RigidBody.set_velocity (s bodyA)
               (Vector3D.subtract (RigidBody.velocity (s bodyA))
                  (Vector3D.multiply impulse (RigidBody.inverseMass (s bodyA)))))
        else s in
      let s :=
        if negb (RigidBody.isStatic (s bodyB)) then
          upd s bodyB
            (RigidBody.set_velocity (s bodyB)
               (Vector3D.add (RigidBody.velocity (s bodyB))
                  (Vector3D.multiply impulse (RigidBody.inverseMass (s bodyB)))))
        else s in
      let s := applyFriction s bodyA bodyB contactNormal relativeVelocity j in
      (true, s).

(** The inner loop of [resolveCollisions] over [this.collisions]:
    the final [hasCollisions] and the store. *)
Fixpoint resolvePass (s : Store) (cs : list Collision.t) : bool * Store :=
  match cs with
  | [] => (false, s)
  | collision :: rest =>
      let '(resolved, s) := resolveCollision s collision in
      let '(hasCollisions, s) := resolvePass s rest in
      (resolved || hasCollisions, s)
  end.

(** The outer loop of [resolveCollisions], entered with loop variable
    [iteration] and [n] iterations left before [collisionIterations]. *)
Fixpoint resolveIterations (n iteration : nat) (w : t) (s : Store) : t * Store :=
  match n with
  | O => (w, s)
  | S n' =>
      let '(hasCollisions, s) := resolvePass s (collisions w) in
      if negb hasCollisions then (w, s)
      else
        let w :=
          if Nat.ltb iteration (collisionIterations w - 1)
          then detectCollisions w s else w in
        resolveIterations n' (S iteration) w s
  end.

Definition resolveCollisions (w : t) (s : Store) : t * Store :=
  resolveIterations (collisionIterations w) 0 w s.

Definition fixedUpdate (w : t) (s : Store) (deltaTime : R) : t * Store :=
  let s := applyGravity w s in
  let s := integrateAll w deltaTime s in
  let w := detectCollisions w s in
  resolveCollisions w s.

(** The [while] loop of [step], entered with local counter [subSteps] and
    [n] iterations left before [maxSubSteps]; it returns the final
    [subSteps] with the state. *)
Fixpoint stepLoop (n subSteps : nat) (w : t) (s : Store) : nat * (t * Store) :=
  match n with
  | O => (subSteps, (w, s))
  | S n' =>
      if Num.geb (accumulator w) (timeStep w) && Nat.ltb subSteps (maxSubSteps w)
      then
        let '(w, s) := fixedUpdate w s (timeStep w) in
        let w := set_accumulator w (accumulator w - timeStep w) in
        stepLoop n' (S subSteps) w s
      else (subSteps, (w, s))
  end.

(** [step(deltaTime)], with the number of sub-updates it ran. *)
Definition stepCount (w : t) (s : Store) (deltaTime : R) : nat * (t * Store) :=
  let w := set_accumulator w (accumulator w + deltaTime) in
  stepLoop (maxSubSteps w) 0 w s.

Definition step (w : t) (s : Store) (deltaTime : R) : t * Store :=
  snd (stepCount w s deltaTime).

(** [getCollisions()]: a fresh array with the same elements. *)
Definition getCollisions (w : t) : list Collision.t := collisions w.

(** [queryAABB(aabb)]: the bodies pushed by the scan, in order. *)
Definition queryAABB (w : t) (s : Store) (aabb : AABB.t) : list BodyRef :=
  fold_left
    (fun result collider =>
       if AABB.intersects aabb (Collider.getAABB s (heap collider))
       then result ++ [Collider.rigidbody (heap collider)]
       else result)
    (colliders w) [].

End WithColliders.

End PhysicsWorld.

(** ** Sequences of API calls *)

(** The mass and mode operations of a [RigidBody]. *)
Inductive BodyOp : Type :=
| SetMass (m : R)
| MakeStatic
| MakeKinematic
| MakeDynamic (m : R).

Definition applyBodyOp (b : RigidBody.t) (op : BodyOp) : RigidBody.t :=
  match op with
  | SetMass m => RigidBody.setMass b m
  | MakeStatic => RigidBody.makeStatic b
  | MakeKinematic => RigidBody.makeKinematic b
  | MakeDynamic m => RigidBody.makeDynamic b m
  end.

Definition runBodyOps (b : RigidBody.t) (ops : list BodyOp) : RigidBody.t :=
  fold_left applyBodyOp ops b.

(** A run in which [setMass] is never called directly with a positive mass
    on a body that is static at that moment. *)
Fixpoint setMassGuarded (b : RigidBody.t) (ops : list BodyOp) : Prop :=
  match ops with
  | [] => True
  | op :: rest =>
      match op with
      | SetMass m => RigidBody.isStatic b = true -> m <= 0
      | _ => True
      end /\ setMassGuarded (applyBodyOp b op) rest
  end.

(** What [inverseMass == 0] tells about a body. *)
Definition zeroInverseMassExplained (b : RigidBody.t) : Prop :=
  RigidBody.inverseMass b = 0 ->
  RigidBody.isStatic b = true \/ RigidBody.isKinematic b = true \/ RigidBody.mass b <= 0.

(** The force and torque operations of a [RigidBody]. *)
Inductive ForceOp : Type :=
| AddForce (force : Vector3D.t)
| AddForceAtPoint (force point : Vector3D.t)
| AddTorque (torque : Vector3D.t).

Definition applyForceOp (b : RigidBody.t) (op : ForceOp) : RigidBody.t :=
  match op with
  | AddForce force => RigidBody.addForce b force
  | AddForceAtPoint force point => RigidBody.addForceAtPoint b force point
  | AddTorque torque => RigidBody.addTorque b torque
  end.

Definition runForceOps (b : RigidBody.t) (ops : list ForceOp) : RigidBody.t :=
  fold_left applyForceOp ops b.

(** The state-changing public methods of a [PhysicsWorld]; [Client f] is
    any code of the caller that writes to bodies between two calls. *)
Inductive WorldOp : Type :=
| SetGravity (gravity : Vector3D.t)
| AddRigidBody (rigidbody : BodyRef)
| RemoveRigidBody (rigidbody : BodyRef)
| AddCollider (collider : ColliderRef)
| RemoveCollider (collider : ColliderRef)
| Step (deltaTime : R)
| Clear
| ConfigureDenseScene (enable : bool)
| SetMaxObjects (limit : R)
| Client (f : Store -> Store).

Definition applyWorldOp (heap : ColliderHeap) (ws : PhysicsWorld.t * Store)
    (op : WorldOp) : PhysicsWorld.t * Store :=
  let '(w, s) := ws in
  match op with
  | SetGravity gravity => (PhysicsWorld.setGravity w gravity, s)
  | AddRigidBody rigidbody => (PhysicsWorld.addRigidBody w rigidbody, s)
  | RemoveRigidBody rigidbody => (PhysicsWorld.removeRigidBody w rigidbody, s)
  | AddCollider collider => (PhysicsWorld.addCollider heap w collider, s)
  | RemoveCollider collider => (PhysicsWorld.removeCollider w collider, s)
  | Step deltaTime => PhysicsWorld.step heap w s deltaTime
  | Clear => (PhysicsWorld.clear w, s)
  | ConfigureDenseScene enable => (PhysicsWorld.configureDenseScene w enable, s)
  | SetMaxObjects limit => (PhysicsWorld.setMaxObjects w limit, s)
  | Client f => (w, f s)
  end.

Definition runWorldOps (heap : ColliderHeap) (ws : PhysicsWorld.t * Store)
    (ops : list WorldOp) : PhysicsWorld.t * Store :=
  fold_left (applyWorldOp heap) ops ws.

(** One sub-update as [step] performs it: [fixedUpdate(timeStep)] followed by
    [accumulator -= timeStep]. *)
Definition subUpdate (heap : ColliderHeap) (ws : PhysicsWorld.t * Store)
    : PhysicsWorld.t * Store :=
  let '(w, s) := PhysicsWorld.fixedUpdate heap (fst ws) (snd ws) (PhysicsWorld.timeStep (fst ws)) in
  (PhysicsWorld.set_accumulator w (PhysicsWorld.accumulator w - PhysicsWorld.timeStep w), s).

(** Body [b] takes no part in collision [c]. *)
Definition apartFrom (b : BodyRef) (c : Collision.t) : Prop :=
  Collision.bodyA c <> b /\ Collision.bodyB c <> b.

(** No registered collider of the world sits on body [b]. *)
Definition hasNoCollider (heap : ColliderHeap) (w : PhysicsWorld.t) (b : BodyRef) : Prop :=
  forall c, In c (PhysicsWorld.colliders w) -> Collider.rigidbody (heap c) <> b.

(** What one round of the loop of [applyGravity] does to the body it visits. *)
Definition gravityOn (w : PhysicsWorld.t) (body : RigidBody.t) : RigidBody.t :=
  if RigidBody.useGravity body && negb (RigidBody.isStatic body)
     && negb (RigidBody.isKinematic body)
  then RigidBody.addForce body (Vector3D.multiply (PhysicsWorld.gravity w) (RigidBody.mass body))
  else body.

(** The component along the contact normal of the relative velocity (B - A)
    of the two bodies of a collision. *)
Definition velocityAlongNormal (s : Store) (c : Collision.t) : R :=
  Vector3D.dot
    (Vector3D.subtract (RigidBody.velocity (s (Collision.bodyB c)))
                       (RigidBody.velocity (s (Collision.bodyA c))))
    (Collision.contactNormal c).

(** The two entry guards of [resolveCollision]. *)
Definition bothStatic (s : Store) (c : Collision.t) : bool :=
  RigidBody.isStatic (s (Collision.bodyA c)) && RigidBody.isStatic (s (Collision.bodyB c)).

(** An AABB whose [min] corner is below its [max] corner on every axis. *)
Definition wellFormed (a : AABB.t) : Prop :=
  Vector3D.x (AABB.min a) <= Vector3D.x (AABB.max a) /\
  Vector3D.y (AABB.min a) <= Vector3D.y (AABB.max a) /\
  Vector3D.z (AABB.min a) <= Vector3D.z (AABB.max a).

(** A collider whose extents (box size, sphere radius) are not negative. *)
Definition nonNegativeExtent (c : Collider.t) : Prop :=
  match Collider.shape c with
  | Collider.Box size =>
      0 <= Vector3D.x size /\ 0 <= Vector3D.y size /\ 0 <= Vector3D.z size
  | Collider.Sphere radius => 0 <= radius
  end.

(** The result of the narrow phase for a pair, filtered as
    [detectCollisions] filters it, without the broad phase. *)
Definition narrowPhaseOnly (heap : ColliderHeap) (s : Store) (a b : ColliderRef)
    : list Collision.t :=
  if RigidBody.isStatic (s (Collider.rigidbody (heap a)))
     && RigidBody.isStatic (s (Collider.rigidbody (heap b)))
  then []
  else
    match Collider.checkCollision s (heap a) (heap b) with
    | Some collision =>
        if Num.gtb (Collision.penetrationDepth collision) 0.001 then [collision] else []
    | None => []
    end.

(** What [detectCollisions] guarantees of a collision it records. *)
Definition recordedContact (heap : ColliderHeap) (w : PhysicsWorld.t) (s : Store)
    (c : Collision.t) : Prop :=
  Collision.penetrationDepth c > 0.001 /\
  bothStatic s c = false /\
  exists a b, In a (PhysicsWorld.colliders w) /\ In b (PhysicsWorld.colliders w) /\
              Collision.bodyA c = Collider.rigidbody (heap a) /\
              Collision.bodyB c = Collider.rigidbody (heap b).

(** The two constant profiles of [configureDenseScene]. *)
Definition defaultProfile (w : PhysicsWorld.t) : Prop :=
  PhysicsWorld.timeStep w = 1 / 60 /\ PhysicsWorld.maxSubSteps w = 5%nat /\
  PhysicsWorld.collisionIterations w = 8%nat.
Definition denseProfile (w : PhysicsWorld.t) : Prop :=
  PhysicsWorld.timeStep w = 1 / 120 /\ PhysicsWorld.maxSubSteps w = 8%nat /\
  PhysicsWorld.collisionIterations w = 12%nat.

(** The fields that collision resolution reads but never writes are the
    same in both stores, for every body. *)
Definition sameMaterial (s s' : Store) : Prop :=
  forall r,
    RigidBody.mass (s' r) = RigidBody.mass (s r) /\
    RigidBody.inverseMass (s' r) = RigidBody.inverseMass (s r) /\
    RigidBody.isStatic (s' r) = RigidBody.isStatic (s r) /\
    RigidBody.restitution (s' r) = RigidBody.restitution (s r) /\
    RigidBody.friction (s' r) = RigidBody.friction (s r).

(** ** Concrete scenes *)

(** A store in which body 1 is a fresh unit-mass body at [p1] and every
    other body a fresh unit-mass body at [p0]. *)
Definition twoBodies (p0 p1 : Vector3D.t) : Store :=
  upd (fun _ => RigidBody.new 1 p0) 1%nat (RigidBody.new 1 p1).

(** A box of side 2 centred at the origin (body 0) and a unit sphere centred
    at (2,0,0) (body 1): the sphere touches the face x = 1 of the box. *)
Definition touchingStore : Store := twoBodies Vector3D.zero (Vector3D.mk 2 0 0).
Definition touchingBox : Collider.t := Collider.newBox 0%nat (Vector3D.mk 2 2 2).
Definition touchingSphere : Collider.t := Collider.newSphere 1%nat 1.

(** A world whose cap is 10 and which holds ten colliders, 0 to 9, each a
    unit sphere on the body of the same number (the state after
    [setMaxObjects(10)] and ten calls of [addCollider]). *)
Definition sphereHeap : ColliderHeap := fun c => Collider.newSphere c 1.

(** Two fresh unit-mass bodies at rest, 0 at the origin and 1 at (0,1,0),
    and a contact between them along the y axis with penetration 0.1. *)
Definition restingStore : Store := twoBodies Vector3D.zero (Vector3D.mk 0 1 0).
Definition restingContact : Collision.t :=
  Collision.mk 0%nat 1%nat (Vector3D.mk 0 0.5 0) (Vector3D.mk 0 1 0) 0.1.

(** Body 1 moves away from body 0 along the normal at speed 1. *)
Definition separatingStore : Store :=
  upd restingStore 1%nat
    (RigidBody.set_velocity (restingStore 1%nat) (Vector3D.mk 0 1 0)).

(** A static ground slab (body 0, collider 0) under a unit sphere
    (body 1, collider 1) that overlaps it. *)
Definition groundStore : Store :=
  upd (fun _ => RigidBody.new 1 (Vector3D.mk 0 (-1) 0)) 0%nat
      (RigidBody.makeStatic (RigidBody.new 0 Vector3D.zero)).
Definition groundHeap : ColliderHeap :=
  fun c => match c with
           | O => Collider.newBox 0%nat (Vector3D.mk 10 1 10)
           | _ => Collider.newSphere 1%nat 1
           end.
Definition groundWorld : PhysicsWorld.t :=
  PhysicsWorld.addCollider groundHeap
    (PhysicsWorld.addCollider groundHeap PhysicsWorld.new 0%nat) 1%nat.

(** A new world with gravity (0,10,0), no collider, and body 0 registered. *)
Definition gravityWorld : PhysicsWorld.t :=
  PhysicsWorld.addRigidBody
    (PhysicsWorld.setGravity PhysicsWorld.new (Vector3D.mk 0 10 0)) 0%nat.

(** Stores of fresh unit-mass bodies: all at height 5, and all at the origin. *)
Definition liftedStore : Store := fun _ => RigidBody.new 1 (Vector3D.mk 0 5 0).
Definition originStore : Store := fun _ => RigidBody.new 1 Vector3D.zero.


(** * Properties *)

(** ** Number comparisons *)

Lemma num_ltb_true a b : Num.ltb a b = true <-> a < b.
Proof. unfold Num.ltb; destruct (Rlt_dec a b); split; intros; try easy. Qed.

Lemma num_ltb_false a b : Num.ltb a b = false <-> b <= a.
Proof. unfold Num.ltb; destruct (Rlt_dec a b); split; intros; try easy; lra. Qed.

Lemma num_leb_true a b : Num.leb a b = true <-> a <= b.
Proof. unfold Num.leb; destruct (Rle_dec a b); split; intros; try easy. Qed.

Lemma num_leb_false a b : Num.leb a b = false <-> b < a.
Proof. unfold Num.leb; destruct (Rle_dec a b); split; intros; try easy; lra. Qed.

Lemma num_gtb_true a b : Num.gtb a b = true <-> a > b.
Proof. unfold Num.gtb; destruct (Rgt_dec a b); split; intros; try easy. Qed.

Lemma num_gtb_false a b : Num.gtb a b = false <-> a <= b.
Proof. unfold Num.gtb; destruct (Rgt_dec a b); split; intros; try easy; lra. Qed.

Lemma num_geb_true a b : Num.geb a b = true <-> a >= b.
Proof. unfold Num.geb; destruct (Rge_dec a b); split; intros; try easy. Qed.

Lemma num_geb_false a b : Num.geb a b = false <-> a < b.
Proof. unfold Num.geb; destruct (Rge_dec a b); split; intros; try easy; lra. Qed.

Lemma num_eqb_true a b : Num.eqb a b = true <-> a = b.
Proof. unfold Num.eqb; destruct (Req_dec_T a b); split; intros; try easy. Qed.

Lemma num_eqb_false a b : Num.eqb a b = false <-> a <> b.
Proof. unfold Num.eqb; destruct (Req_dec_T a b); split; intros; try easy. Qed.

(** Case analysis on every number comparison in the goal. *)
Ltac num_cases :=
  unfold Num.ltb, Num.leb, Num.gtb, Num.geb, Num.eqb in *;
  repeat match goal with
         | |- context [if ?d then _ else _] =>
             match type of d with sumbool _ _ => destruct d end
         end.

(** ** Vectors and quaternions *)

Lemma normalize_returns (v : Vector3D.t) :
  Vector3D.normalize v = Return (Vector3D.normalize_val v).
Proof.
  unfold Vector3D.normalize_val, Vector3D.normalize, Vector3D.divide.
  destruct (Num.eqb (Vector3D.magnitude v) 0); reflexivity.
Qed.

Lemma magnitude_zero : Vector3D.magnitude Vector3D.zero = 0.
Proof.
  unfold Vector3D.magnitude; simpl.
  replace (0 * 0 + 0 * 0 + 0 * 0) with 0 by ring. apply sqrt_0.
Qed.

(** C9.  Dividing a vector by the scalar zero throws, and that is the only
    failure of the vector library: dividing by a non-zero scalar returns,
    normalizing any vector returns, normalizing a vector of zero length
    returns the zero vector, and normalizing a quaternion of zero magnitude
    yields the identity quaternion. *)
Theorem divide_by_zero_is_the_only_failure :
  (forall v, Vector3D.divide v 0 = Throw "Cannot divide by zero") /\
  (forall v scalar, scalar <> 0 -> exists u, Vector3D.divide v scalar = Return u) /\
  (forall v, exists u, Vector3D.normalize v = Return u) /\
  (forall v, Vector3D.magnitude v = 0 ->
             Vector3D.normalize v = Return (Vector3D.mk 0 0 0)) /\
  (forall q, Quaternion.magnitude q = 0 ->
             Quaternion.normalize q = Quaternion.identity).
Proof.
  repeat split.
  - intros v. unfold Vector3D.divide. num_cases; [reflexivity | contradiction].
  - intros v scalar Hs. unfold Vector3D.divide. num_cases; [contradiction | eauto].
  - intros v. rewrite normalize_returns. eauto.
  - intros v Hv. unfold Vector3D.normalize. rewrite Hv.
    num_cases; [reflexivity | contradiction].
  - intros q Hq. unfold Quaternion.normalize. rewrite Hq.
    num_cases; [reflexivity | contradiction].
Qed.

Lemma divide_by_zero_is_the_only_failure_witness :
  Vector3D.magnitude Vector3D.zero = 0 /\
  Vector3D.normalize Vector3D.zero = Return (Vector3D.mk 0 0 0) /\
  Quaternion.magnitude (Quaternion.mk 0 0 0 0) = 0 /\
  Quaternion.normalize (Quaternion.mk 0 0 0 0) = Quaternion.identity /\
  (exists u, Vector3D.divide (Vector3D.mk 3 0 4) 5 = Return u).
Proof.
  assert (Hq : Quaternion.magnitude (Quaternion.mk 0 0 0 0) = 0).
  { unfold Quaternion.magnitude; simpl.
    replace (0 * 0 + 0 * 0 + 0 * 0 + 0 * 0) with 0 by ring. apply sqrt_0. }
  destruct divide_by_zero_is_the_only_failure as (_ & Hdiv & _ & Hv & Hquat).
  repeat split.
  - exact magnitude_zero.
  - apply Hv. exact magnitude_zero.
  - exact Hq.
  - apply Hquat. exact Hq.
  - apply Hdiv. lra.
Defined.

(** ** RigidBody: mass and mode flags *)

Lemma inverse_of_positive m : m > 0 -> 1 / m <> 0.
Proof.
  intros Hm H. assert (0 < 1 / m) by (apply Rdiv_lt_0_compat; lra). lra.
Qed.

Lemma new_explained m p : zeroInverseMassExplained (RigidBody.new m p).
Proof.
  unfold zeroInverseMassExplained, RigidBody.new; simpl.
  num_cases; intros H.
  - exfalso. now apply (inverse_of_positive m r).
  - right; right; lra.
Qed.

Lemma applyBodyOp_explained b op :
  zeroInverseMassExplained b -> zeroInverseMassExplained (applyBodyOp b op).
Proof.
  unfold zeroInverseMassExplained.
  destruct op as [m | | | m]; simpl;
    unfold RigidBody.makeDynamic, RigidBody.setMass, RigidBody.makeStatic,
           RigidBody.makeKinematic;
    destruct b; simpl; intros Hb; num_cases; simpl; intros H; auto;
    try (exfalso; eapply inverse_of_positive; eassumption);
    right; right; lra.
Qed.

Lemma applyBodyOp_static_zero b op :
  (RigidBody.isStatic b = true -> RigidBody.inverseMass b = 0) ->
  match op with
  | SetMass m => RigidBody.isStatic b = true -> m <= 0
  | _ => True
  end ->
  RigidBody.isStatic (applyBodyOp b op) = true ->
  RigidBody.inverseMass (applyBodyOp b op) = 0.
Proof.
  destruct op as [m | | | m]; simpl;
    unfold RigidBody.makeDynamic, RigidBody.setMass, RigidBody.makeStatic,
           RigidBody.makeKinematic;
    destruct b; simpl; intros Hb Hg; num_cases; simpl; intros H;
    auto; try discriminate; try lra.
  specialize (Hg H). lra.
Qed.

(** C1 as stated fails: a kinematic body has [inverseMass == 0] and is not
    static. *)
Lemma inverseMass_zero_iff_static_counterexample :
  let b := runBodyOps (RigidBody.new 1 Vector3D.zero) [MakeKinematic] in
  ~ (RigidBody.inverseMass b = 0 <-> RigidBody.isStatic b = true).
Proof.
  simpl. intros [H _]. specialize (H eq_refl). discriminate.
Qed.

(** The other direction fails too, when [setMass] is called with a positive
    mass on a static body: the flag stays and the inverse mass is recomputed. *)
Example static_body_with_inverse_mass :
  let b := runBodyOps (RigidBody.new 1 Vector3D.zero) [MakeStatic; SetMass 2] in
  RigidBody.isStatic b = true /\ RigidBody.inverseMass b = 1 / 2.
Proof.
  simpl. unfold RigidBody.setMass; simpl. num_cases; simpl; try lra; auto.
Qed.

(** C1, amended.  After the constructor and any sequence of [setMass],
    [makeStatic], [makeKinematic], [makeDynamic]: [inverseMass == 0] implies
    that the body is static, or kinematic, or has a non-positive mass; and a
    static body has [inverseMass == 0] as long as [setMass] was never called
    directly with a positive mass on a body that was static. *)
Theorem inverseMass_zero_invariant (m : R) (p : Vector3D.t) (ops : list BodyOp) :
  let b := runBodyOps (RigidBody.new m p) ops in
  (RigidBody.inverseMass b = 0 ->
   RigidBody.isStatic b = true \/ RigidBody.isKinematic b = true \/ RigidBody.mass b <= 0) /\
  (setMassGuarded (RigidBody.new m p) ops ->
   RigidBody.isStatic b = true -> RigidBody.inverseMass b = 0).
Proof.
  simpl. split.
  - generalize (new_explained m p). generalize (RigidBody.new m p).
    unfold runBodyOps. induction ops as [| op ops IH]; intros b Hb; simpl.
    + exact Hb.
    + apply IH. now apply applyBodyOp_explained.
  - assert (H0 : RigidBody.isStatic (RigidBody.new m p) = true ->
                 RigidBody.inverseMass (RigidBody.new m p) = 0)
      by (simpl; discriminate).
    revert H0. generalize (RigidBody.new m p).
    unfold runBodyOps. induction ops as [| op ops IH]; intros b Hb Hg; simpl.
    + exact Hb.
    + destruct Hg as [Hop Hrest]. apply IH; [| exact Hrest].
      now apply applyBodyOp_static_zero.
Qed.

Lemma inverseMass_zero_invariant_witness :
  let ops := [MakeStatic; MakeDynamic 2; MakeKinematic; SetMass 0] in
  let b := runBodyOps (RigidBody.new 1 Vector3D.zero) ops in
  setMassGuarded (RigidBody.new 1 Vector3D.zero) ops /\
  RigidBody.isStatic b = true /\
  RigidBody.inverseMass b = 0 /\
  (RigidBody.isStatic b = true \/ RigidBody.isKinematic b = true \/ RigidBody.mass b <= 0).
Proof.
  set (ops := [MakeStatic; MakeDynamic 2; MakeKinematic; SetMass 0]).
  assert (Hg : setMassGuarded (RigidBody.new 1 Vector3D.zero) ops).
  { simpl. repeat split; auto. intros _. lra. }
  assert (Hs : RigidBody.isStatic (runBodyOps (RigidBody.new 1 Vector3D.zero) ops) = true).
  { simpl. unfold RigidBody.makeDynamic, RigidBody.setMass; simpl.
    num_cases; simpl; try reflexivity; try lra. }
  destruct (inverseMass_zero_invariant 1 Vector3D.zero ops) as [H1 H2].
  split; [exact Hg |]. split; [exact Hs |]. split.
  - exact (H2 Hg Hs).
  - exact (H1 (H2 Hg Hs)).
Defined.

(** ** Narrow phase between a box and a sphere *)

Lemma touching_closest :
  Collider.closestPoint (Collider.getAABB touchingStore touchingBox)
    (RigidBody.position (touchingStore 1%nat)) = Vector3D.mk 1 0 0.
Proof.
  unfold Collider.closestPoint; simpl.
  repeat first [ rewrite Rmin_left by lra | rewrite Rmin_right by lra ].
  repeat first [ rewrite Rmax_left by lra | rewrite Rmax_right by lra ].
  f_equal; lra.
Qed.

Lemma touching_distance :
  Vector3D.distanceTo (RigidBody.position (touchingStore 1%nat))
    (Collider.closestPoint (Collider.getAABB touchingStore touchingBox)
       (RigidBody.position (touchingStore 1%nat))) = 1.
Proof.
  rewrite touching_closest.
  unfold Vector3D.distanceTo, Vector3D.magnitude; simpl.
  replace ((2 - 1) * (2 - 1) + (0 - 0) * (0 - 0) + (0 - 0) * (0 - 0)) with 1 by ring.
  apply sqrt_1.
Qed.

(** C6 as stated fails at [distance == radius]: the source tests
    [distance > radius], so a sphere that exactly touches the box is reported
    as a collision (of penetration 0). *)
Lemma box_sphere_touching_counterexample :
  Vector3D.distanceTo (RigidBody.position (touchingStore 1%nat))
    (Collider.closestPoint (Collider.getAABB touchingStore touchingBox)
       (RigidBody.position (touchingStore 1%nat))) >= 1 /\
  Collider.checkCollision touchingStore touchingBox touchingSphere <> None.
Proof.
  split.
  - rewrite touching_distance. lra.
  - unfold Collider.checkCollision, touchingBox, touchingSphere; simpl.
    unfold Collider.boxCheckSphereCollision.
    change (Collider.boxAABB touchingStore 0%nat (Vector3D.mk 2 2 2))
      with (Collider.getAABB touchingStore touchingBox).
    rewrite touching_distance.
    num_cases; [lra | discriminate].
Qed.

(** C6, amended.  With [closest] the sphere centre clamped into the box's
    world AABB and [distance] the distance from the centre to [closest]:
    [distance > radius] gives no collision, and [distance <= radius] gives a
    collision between the box's body and the sphere's body whose penetration
    depth is [radius - distance] and whose contact point is [closest]. *)
Theorem box_sphere_narrow_phase (s : Store) (box sphere : Collider.t)
    (size : Vector3D.t) (radius : R) :
  Collider.shape box = Collider.Box size ->
  Collider.shape sphere = Collider.Sphere radius ->
  let center := RigidBody.position (s (Collider.rigidbody sphere)) in
  let closest := Collider.closestPoint (Collider.getAABB s box) center in
  let distance := Vector3D.distanceTo center closest in
  (distance > radius -> Collider.checkCollision s box sphere = None) /\
  (distance <= radius ->
   exists c, Collider.checkCollision s box sphere = Some c /\
             Collision.bodyA c = Collider.rigidbody box /\
             Collision.bodyB c = Collider.rigidbody sphere /\
             Collision.penetrationDepth c = radius - distance /\
             Collision.contactPoint c = closest).
Proof.
  intros Hbox Hsphere. simpl.
  unfold Collider.checkCollision, Collider.getAABB. rewrite Hbox, Hsphere.
  unfold Collider.boxCheckSphereCollision.
  split; intros Hd.
  - apply num_gtb_true in Hd. now rewrite Hd.
  - apply num_gtb_false in Hd. rewrite Hd.
    eexists; repeat split.
Qed.

Lemma box_sphere_narrow_phase_witness :
  exists c, Collider.checkCollision touchingStore touchingBox touchingSphere = Some c /\
            Collision.penetrationDepth c = 0 /\
            Collision.contactPoint c = Vector3D.mk 1 0 0.
Proof.
  destruct (box_sphere_narrow_phase touchingStore touchingBox touchingSphere
              (Vector3D.mk 2 2 2) 1 eq_refl eq_refl) as [_ H].
  cbv zeta in H. change (Collider.rigidbody touchingSphere) with 1%nat in H.
  rewrite touching_distance, touching_closest in H.
  destruct (H (Rle_refl 1)) as (c & Hc & _ & _ & Hp & Hq).
  exists c. repeat split; [exact Hc | rewrite Hp; ring | exact Hq].
Defined.

(** C4.  For a box and a sphere, [sphere.checkCollision(box)] reports a
    collision exactly when [box.checkCollision(sphere)] does; the two
    records then have the same penetration depth and contact point, the
    box-first record has the box's body as [bodyA] and the sphere's as
    [bodyB] and the sphere-first record has them swapped, and the two
    normals are opposite, component by component, with equal magnitude. *)
Theorem box_sphere_order_symmetry (s : Store) (box sphere : Collider.t)
    (size : Vector3D.t) (radius : R) :
  Collider.shape box = Collider.Box size ->
  Collider.shape sphere = Collider.Sphere radius ->
  match Collider.checkCollision s sphere box, Collider.checkCollision s box sphere with
  | Some sb, Some bs =>
      Collision.penetrationDepth sb = Collision.penetrationDepth bs /\
      Collision.bodyA bs = Collider.rigidbody box /\
      Collision.bodyB bs = Collider.rigidbody sphere /\
      Collision.bodyA sb = Collision.bodyB bs /\
      Collision.bodyB sb = Collision.bodyA bs /\
      Collision.contactPoint sb = Collision.contactPoint bs /\
      Vector3D.x (Collision.contactNormal sb) = - Vector3D.x (Collision.contactNormal bs) /\
      Vector3D.y (Collision.contactNormal sb) = - Vector3D.y (Collision.contactNormal bs) /\
      Vector3D.z (Collision.contactNormal sb) = - Vector3D.z (Collision.contactNormal bs) /\
      Vector3D.magnitude (Collision.contactNormal sb)
      = Vector3D.magnitude (Collision.contactNormal bs)
  | None, None => True
  | _, _ => False
  end.
Proof.
  intros Hbox Hsphere.
  unfold Collider.checkCollision. rewrite Hbox, Hsphere.
  destruct (Collider.boxCheckSphereCollision s (Collider.rigidbody box) size
              (Collider.rigidbody sphere) radius) as [bs |] eqn:Hbs; [| exact I].
  assert (Hbodies : Collision.bodyA bs = Collider.rigidbody box /\
                    Collision.bodyB bs = Collider.rigidbody sphere).
  { unfold Collider.boxCheckSphereCollision in Hbs.
    destruct (Num.gtb _ radius); [discriminate |].
    injection Hbs as <-. split; reflexivity. }
  destruct Hbodies as [HA HB]. simpl.
  repeat split; try assumption; try ring.
  unfold Vector3D.magnitude; simpl. f_equal. ring.
Qed.

Lemma box_sphere_order_symmetry_witness :
  match Collider.checkCollision touchingStore touchingSphere touchingBox,
        Collider.checkCollision touchingStore touchingBox touchingSphere with
  | Some sb, Some bs =>
      Collision.penetrationDepth sb = Collision.penetrationDepth bs /\
      Collision.bodyA sb = Collision.bodyB bs /\
      Collision.bodyB sb = Collision.bodyA bs
  | None, None => True
  | _, _ => False
  end.
Proof.
  pose proof (box_sphere_order_symmetry touchingStore touchingBox touchingSphere
                (Vector3D.mk 2 2 2) 1 eq_refl eq_refl) as H.
  destruct (Collider.checkCollision touchingStore touchingSphere touchingBox);
    destruct (Collider.checkCollision touchingStore touchingBox touchingSphere);
    try exact H.
  destruct H as (Hp & _ & _ & Ha & Hb & _). auto.
Defined.

(** ** PhysicsWorld: registries *)

Lemma includes_In (l : list nat) (r : nat) :
  PhysicsWorld.includes l r = true <-> In r l.
Proof.
  unfold PhysicsWorld.includes. rewrite existsb_exists. split.
  - intros (x & Hx & Heq). apply Nat.eqb_eq in Heq. now subst.
  - intros H. exists r. split; [exact H | apply Nat.eqb_refl].
Qed.

Lemma includes_not_In (l : list nat) (r : nat) :
  PhysicsWorld.includes l r = false <-> ~ In r l.
Proof.
  rewrite <- includes_In. destruct (PhysicsWorld.includes l r); split; intros H;
    try reflexivity; try discriminate; try (intros H'; discriminate).
  exfalso. now apply H.
Qed.

Lemma NoDup_snoc (l : list nat) (r : nat) :
  NoDup l -> ~ In r l -> NoDup (l ++ [r]).
Proof.
  intros Hl Hr. induction Hl as [| a l Ha Hl IH]; simpl.
  - constructor; [intros [] | constructor].
  - constructor.
    + rewrite in_app_iff. intros [H | [H | []]]; [now apply Ha |].
      apply Hr. now left.
    + apply IH. intros H. apply Hr. now right.
Qed.

Lemma addRigidBody_spec (w : PhysicsWorld.t) (r : BodyRef) :
  In r (PhysicsWorld.rigidbodies (PhysicsWorld.addRigidBody w r)) /\
  (forall r', In r' (PhysicsWorld.rigidbodies w) ->
              In r' (PhysicsWorld.rigidbodies (PhysicsWorld.addRigidBody w r))) /\
  (NoDup (PhysicsWorld.rigidbodies w) ->
   NoDup (PhysicsWorld.rigidbodies (PhysicsWorld.addRigidBody w r))) /\
  PhysicsWorld.colliders (PhysicsWorld.addRigidBody w r) = PhysicsWorld.colliders w /\
  PhysicsWorld.maxObjectsPerFrame (PhysicsWorld.addRigidBody w r)
  = PhysicsWorld.maxObjectsPerFrame w.
Proof.
  unfold PhysicsWorld.addRigidBody.
  destruct (PhysicsWorld.includes (PhysicsWorld.rigidbodies w) r) eqn:Hin; simpl.
  - apply includes_In in Hin. auto.
  - apply includes_not_In in Hin. repeat split; auto.
    + rewrite in_app_iff. right. now left.
    + intros r' H. rewrite in_app_iff. now left.
    + intros H. now apply NoDup_snoc.
Qed.










(** ** PhysicsWorld: configuration *)

Lemma detectCollisions_world (heap : ColliderHeap) (w : PhysicsWorld.t) (s : Store) :
  PhysicsWorld.detectCollisions heap w s
  = PhysicsWorld.set_collisions w (PhysicsWorld.collisions (PhysicsWorld.detectCollisions heap w s)).
Proof. reflexivity. Qed.

Lemma set_collisions_twice (w : PhysicsWorld.t) (a b : list Collision.t) :
  PhysicsWorld.set_collisions (PhysicsWorld.set_collisions w a) b
  = PhysicsWorld.set_collisions w b.
Proof. reflexivity. Qed.

Lemma resolveIterations_world (heap : ColliderHeap) (n i : nat) (w : PhysicsWorld.t)
    (s : Store) :
  exists cs, fst (PhysicsWorld.resolveIterations heap n i w s)
             = PhysicsWorld.set_collisions w cs.
Proof.
  revert i w s. induction n as [| n IH]; intros i w s; simpl.
  - exists (PhysicsWorld.collisions w). now destruct w.
  - destruct (PhysicsWorld.resolvePass s (PhysicsWorld.collisions w)) as [has s'].
    destruct has; simpl.
    + destruct (Nat.ltb i (PhysicsWorld.collisionIterations w - 1)).
      * destruct (IH (S i) (PhysicsWorld.detectCollisions heap w s') s') as [cs Hcs].
        exists cs. rewrite Hcs. reflexivity.
      * apply IH.
    + exists (PhysicsWorld.collisions w). now destruct w.
Qed.

Lemma fixedUpdate_world (heap : ColliderHeap) (w : PhysicsWorld.t) (s : Store) (dt : R) :
  exists cs, fst (PhysicsWorld.fixedUpdate heap w s dt) = PhysicsWorld.set_collisions w cs.
Proof.
  unfold PhysicsWorld.fixedUpdate, PhysicsWorld.resolveCollisions.
  destruct (resolveIterations_world heap
              (PhysicsWorld.collisionIterations
                 (PhysicsWorld.detectCollisions heap w
                    (PhysicsWorld.integrateAll w dt (PhysicsWorld.applyGravity w s))))
              0
              (PhysicsWorld.detectCollisions heap w
                 (PhysicsWorld.integrateAll w dt (PhysicsWorld.applyGravity w s)))
              (PhysicsWorld.integrateAll w dt (PhysicsWorld.applyGravity w s)))
    as [cs Hcs].
  exists cs. rewrite Hcs. reflexivity.
Qed.

Lemma subUpdate_world (heap : ColliderHeap) (w : PhysicsWorld.t) (s : Store) :
  exists cs,
    fst (subUpdate heap (w, s))
    = PhysicsWorld.set_accumulator (PhysicsWorld.set_collisions w cs)
        (PhysicsWorld.accumulator w - PhysicsWorld.timeStep w).
Proof.
  unfold subUpdate. simpl.
  destruct (fixedUpdate_world heap w s (PhysicsWorld.timeStep w)) as [cs Hcs].
  destruct (PhysicsWorld.fixedUpdate heap w s (PhysicsWorld.timeStep w)) as [w1 s1].
  simpl in *. subst w1. exists cs. reflexivity.
Qed.

Lemma stepLoop_subUpdate (heap : ColliderHeap) (n k : nat) (w : PhysicsWorld.t) (s : Store) :
  PhysicsWorld.stepLoop heap (S n) k w s
  = if Num.geb (PhysicsWorld.accumulator w) (PhysicsWorld.timeStep w)
       && Nat.ltb k (PhysicsWorld.maxSubSteps w)
    then PhysicsWorld.stepLoop heap n (S k) (fst (subUpdate heap (w, s)))
           (snd (subUpdate heap (w, s)))
    else (k, (w, s)).
Proof.
  simpl. unfold subUpdate. simpl.
  destruct (PhysicsWorld.fixedUpdate heap w s (PhysicsWorld.timeStep w)) as [w1 s1].
  reflexivity.
Qed.

Lemma stepLoop_world (heap : ColliderHeap) (n k : nat) (w : PhysicsWorld.t) (s : Store) :
  exists cs acc,
    fst (snd (PhysicsWorld.stepLoop heap n k w s))
    = PhysicsWorld.set_accumulator (PhysicsWorld.set_collisions w cs) acc.
Proof.
  revert k w s. induction n as [| n IH]; intros k w s.
  - exists (PhysicsWorld.collisions w), (PhysicsWorld.accumulator w). now destruct w.
  - rewrite stepLoop_subUpdate.
    destruct (_ && _).
    + destruct (subUpdate_world heap w s) as [cs Hcs].
      destruct (IH (S k) (fst (subUpdate heap (w, s))) (snd (subUpdate heap (w, s))))
        as (cs' & acc' & H).
      exists cs', acc'. rewrite H, Hcs. reflexivity.
    + exists (PhysicsWorld.collisions w), (PhysicsWorld.accumulator w). now destruct w.
Qed.

Lemma step_world (heap : ColliderHeap) (w : PhysicsWorld.t) (s : Store) (dt : R) :
  exists cs acc,
    fst (PhysicsWorld.step heap w s dt)
    = PhysicsWorld.set_accumulator (PhysicsWorld.set_collisions w cs) acc.
Proof.
  unfold PhysicsWorld.step, PhysicsWorld.stepCount.
  destruct (stepLoop_world heap
              (PhysicsWorld.maxSubSteps
                 (PhysicsWorld.set_accumulator w (PhysicsWorld.accumulator w + dt)))
              0
              (PhysicsWorld.set_accumulator w (PhysicsWorld.accumulator w + dt)) s)
    as (cs & acc & H).
  exists cs, acc. rewrite H. reflexivity.
Qed.

Lemma applyWorldOp_cap (heap : ColliderHeap) (ws : PhysicsWorld.t * Store) (op : WorldOp) :
  10 <= PhysicsWorld.maxObjectsPerFrame (fst ws) ->
  10 <= PhysicsWorld.maxObjectsPerFrame (fst (applyWorldOp heap ws op)).
Proof.
  destruct ws as [w s]. intros H. destruct op; simpl in *; try exact H.
  - unfold PhysicsWorld.addRigidBody. now destruct (negb _).
  - unfold PhysicsWorld.addCollider.
    destruct (negb _); [| exact H]. destruct (Num.geb _ _); [exact H |].
    unfold PhysicsWorld.addRigidBody. now destruct (negb _).
  - destruct (step_world heap w s deltaTime) as (cs & acc & Hw). rewrite Hw. exact H.
  - now destruct enable.
  - apply Rmax_l.
Qed.

(** C10.  [setMaxObjects(limit)] sets the collider cap to [max(10, limit)];
    a limit below 10 gives exactly 10; and after any sequence of public
    calls on a new world, with any writes to bodies in between, the cap is
    at least 10. *)
Theorem setMaxObjects_floor :
  (forall w limit,
     PhysicsWorld.maxObjectsPerFrame (PhysicsWorld.setMaxObjects w limit) = Rmax 10 limit) /\
  (forall w limit,
     limit < 10 ->
     PhysicsWorld.maxObjectsPerFrame (PhysicsWorld.setMaxObjects w limit) = 10) /\
  (forall heap s ops,
     10 <= PhysicsWorld.maxObjectsPerFrame (fst (runWorldOps heap (PhysicsWorld.new, s) ops))).
Proof.
  split; [| split].
  - reflexivity.
  - intros w limit H. simpl. apply Rmax_left. lra.
  - intros heap s ops.
    assert (H : 10 <= PhysicsWorld.maxObjectsPerFrame (fst (PhysicsWorld.new, s)))
      by (simpl; lra).
    revert H. generalize (PhysicsWorld.new, s).
    unfold runWorldOps. induction ops as [| op ops IH]; intros ws H; simpl.
    + exact H.
    + apply IH. now apply applyWorldOp_cap.
Qed.

Lemma setMaxObjects_floor_witness :
  PhysicsWorld.maxObjectsPerFrame (PhysicsWorld.setMaxObjects PhysicsWorld.new 3) = 10 /\
  PhysicsWorld.maxObjectsPerFrame (PhysicsWorld.setMaxObjects PhysicsWorld.new (-5)) = 10.
Proof.
  destruct setMaxObjects_floor as (_ & H & _).
  split; apply H; lra.
Defined.

(** ** The store: which bodies a call can write to *)

Lemma upd_eq (s : Store) (r : BodyRef) (x : RigidBody.t) : upd s r x r = x.
Proof. unfold upd. now rewrite Nat.eqb_refl. Qed.

Lemma upd_neq (s : Store) (r b : BodyRef) (x : RigidBody.t) :
  r <> b -> upd s r x b = s b.
Proof.
  intros H. unfold upd. destruct (Nat.eqb b r) eqn:E; [| reflexivity].
  apply Nat.eqb_eq in E. congruence.
Qed.

(** The source's pattern [if (!body.isStatic) { body.f = ... }] leaves a body
    alone when it is static or is not the one assigned to. *)
Lemma guarded_upd_frame (s : Store) (r b : BodyRef) (x : RigidBody.t) :
  RigidBody.isStatic (s b) = true \/ r <> b ->
  (if negb (RigidBody.isStatic (s r)) then upd s r x else s) b = s b.
Proof.
  intros H. destruct (RigidBody.isStatic (s r)) eqn:E; simpl; [reflexivity |].
  apply upd_neq. destruct H as [H | H]; [| exact H].
  intros ->. congruence.
Qed.

Lemma separateObjects_frame (s : Store) (bodyA bodyB : BodyRef) (normal : Vector3D.t)
    (penetration : R) (b : BodyRef) :
  RigidBody.isStatic (s b) = true \/ (bodyA <> b /\ bodyB <> b) ->
  PhysicsWorld.separateObjects s bodyA bodyB normal penetration b = s b.
Proof.
  intros H. unfold PhysicsWorld.separateObjects.
  destruct (Num.eqb _ 0); [reflexivity |]. cbv zeta.
  match goal with
  | |- (if negb (RigidBody.isStatic (?s1 bodyB)) then _ else _) b = _ =>
      assert (H1 : s1 b = s b) by (apply guarded_upd_frame; tauto);
      rewrite guarded_upd_frame; [exact H1 | rewrite H1; tauto]
  end.
Qed.

(** [separateObjects] assigns positions only. *)
Lemma separateObjects_velocity (s : Store) (bodyA bodyB : BodyRef) (normal : Vector3D.t)
    (penetration : R) (b : BodyRef) :
  RigidBody.velocity (PhysicsWorld.separateObjects s bodyA bodyB normal penetration b)
  = RigidBody.velocity (s b).
Proof.
  unfold PhysicsWorld.separateObjects.
  destruct (Num.eqb _ 0); [reflexivity |]. cbv zeta.
  assert (Hupd : forall (s0 : Store) r p,
             RigidBody.velocity
               ((if negb (RigidBody.isStatic (s0 r))
                 then upd s0 r (RigidBody.set_position (s0 r) p) else s0) b)
             = RigidBody.velocity (s0 b)).
  { intros s0 r p. destruct (negb _); [| reflexivity].
    unfold upd. destruct (Nat.eqb b r) eqn:E; [| reflexivity].
    apply Nat.eqb_eq in E. subst. reflexivity. }
  rewrite Hupd. apply Hupd.
Qed.

Lemma applyFriction_frame (s : Store) (bodyA bodyB : BodyRef)
    (normal relativeVelocity : Vector3D.t) (normalImpulse : R) (b : BodyRef) :
  RigidBody.isStatic (s b) = true \/ (bodyA <> b /\ bodyB <> b) ->
  PhysicsWorld.applyFriction s bodyA bodyB normal relativeVelocity normalImpulse b = s b.
Proof.
  intros H. unfold PhysicsWorld.applyFriction.
  destruct (Num.ltb _ _); [reflexivity |]. cbv zeta.
  match goal with
  | |- (if negb (RigidBody.isStatic (?s1 bodyB)) then _ else _) b = _ =>
      assert (H1 : s1 b = s b) by (apply guarded_upd_frame; tauto);
      rewrite guarded_upd_frame; [exact H1 | rewrite H1; tauto]
  end.
Qed.

Lemma resolveCollision_frame (s : Store) (c : Collision.t) (b : BodyRef) :
  RigidBody.isStatic (s b) = true \/ apartFrom b c ->
  snd (PhysicsWorld.resolveCollision s c) b = s b.
Proof.
  unfold apartFrom. intros H. unfold PhysicsWorld.resolveCollision.
  destruct (_ && _); [reflexivity |].
  destruct (Num.leb _ _); [reflexivity |]. cbv zeta.
  pose proof (separateObjects_frame s (Collision.bodyA c) (Collision.bodyB c)
                (Collision.contactNormal c) (Collision.penetrationDepth c) b H) as H0.
  set (s0 := PhysicsWorld.separateObjects s (Collision.bodyA c) (Collision.bodyB c)
               (Collision.contactNormal c) (Collision.penetrationDepth c)) in *.
  destruct (Num.gtb _ 0); [exact H0 |]. simpl snd.
  match goal with
  | |- PhysicsWorld.applyFriction ?s2 _ _ _ _ _ b = _ =>
      match s2 with
      | (if negb (RigidBody.isStatic (?s1 _)) then _ else _) =>
          assert (H1 : s1 b = s b)
            by (rewrite <- H0; apply guarded_upd_frame; rewrite H0; tauto);
          assert (H2 : s2 b = s b)
            by (rewrite <- H1; apply guarded_upd_frame; rewrite H1; tauto);
          rewrite applyFriction_frame; [exact H2 | rewrite H2; tauto]
      end
  end.
Qed.

Lemma resolvePass_frame (cs : list Collision.t) (s : Store) (b : BodyRef) :
  RigidBody.isStatic (s b) = true \/ Forall (apartFrom b) cs ->
  snd (PhysicsWorld.resolvePass s cs) b = s b.
Proof.
  revert s. induction cs as [| c cs IH]; intros s H; simpl; [reflexivity |].
  assert (Hc : RigidBody.isStatic (s b) = true \/ apartFrom b c).
  { destruct H as [H | H]; [now left | right; now inversion H]. }
  pose proof (resolveCollision_frame s c b Hc) as H1.
  destruct (PhysicsWorld.resolveCollision s c) as [r s1]. simpl in H1.
  assert (Hcs : RigidBody.isStatic (s1 b) = true \/ Forall (apartFrom b) cs).
  { rewrite H1. destruct H as [H | H]; [now left | right; now inversion H]. }
  specialize (IH s1 Hcs).
  destruct (PhysicsWorld.resolvePass s1 cs) as [r' s2]. simpl in *. congruence.
Qed.

Lemma checkCollision_bodies (s : Store) (this other : Collider.t) (c : Collision.t) :
  Collider.checkCollision s this other = Some c ->
  Collision.bodyA c = Collider.rigidbody this /\
  Collision.bodyB c = Collider.rigidbody other.
Proof.
  unfold Collider.checkCollision.
  destruct (Collider.shape this), (Collider.shape other).
  - unfold Collider.checkBoxCollision. destruct (negb _); [discriminate |].
    cbv zeta. repeat destruct (Num.ltb _ _); intros [= <-]; auto.
  - unfold Collider.boxCheckSphereCollision.
    destruct (Num.gtb _ _); [discriminate |]. intros [= <-]; auto.
  - unfold Collider.boxCheckSphereCollision.
    destruct (Num.gtb _ _); [discriminate |]. intros [= <-]; auto.
  - unfold Collider.sphereCheckSphereCollision.
    destruct (Num.geb _ _); [discriminate |]. intros [= <-]; auto.
Qed.

Lemma detectPair_apart (heap : ColliderHeap) (s : Store) (a c : ColliderRef) (b : BodyRef) :
  Collider.rigidbody (heap a) <> b -> Collider.rigidbody (heap c) <> b ->
  Forall (apartFrom b) (PhysicsWorld.detectPair heap s a c).
Proof.
  intros Ha Hc. unfold PhysicsWorld.detectPair.
  destruct (_ && _); [constructor |].
  destruct (negb _); [constructor |].
  destruct (Collider.checkCollision s (heap a) (heap c)) as [col |] eqn:E; [| constructor].
  destruct (Num.gtb _ _); [| constructor].
  apply checkCollision_bodies in E. destruct E as [EA EB].
  constructor; [| constructor]. unfold apartFrom. rewrite EA, EB. auto.
Qed.

Lemma detectFrom_apart (heap : ColliderHeap) (s : Store) (cs : list ColliderRef) (b : BodyRef) :
  (forall c, In c cs -> Collider.rigidbody (heap c) <> b) ->
  Forall (apartFrom b) (PhysicsWorld.detectFrom heap s cs).
Proof.
  induction cs as [| a cs IH]; intros H; simpl; [constructor |].
  apply Forall_app. split.
  - apply Forall_flat_map. apply Forall_forall. intros c Hc.
    apply detectPair_apart; apply H; simpl; auto.
  - apply IH. intros c Hc. apply H. now right.
Qed.

Lemma resolveIterations_frame (heap : ColliderHeap) (n i : nat) (w : PhysicsWorld.t)
    (s : Store) (b : BodyRef) :
  RigidBody.isStatic (s b) = true \/
  (Forall (apartFrom b) (PhysicsWorld.collisions w) /\ hasNoCollider heap w b) ->
  snd (PhysicsWorld.resolveIterations heap n i w s) b = s b.
Proof.
  revert i w s. induction n as [| n IH]; intros i w s H; simpl; [reflexivity |].
  assert (Hpass : RigidBody.isStatic (s b) = true \/
                  Forall (apartFrom b) (PhysicsWorld.collisions w)) by tauto.
  pose proof (resolvePass_frame (PhysicsWorld.collisions w) s b Hpass) as H1.
  destruct (PhysicsWorld.resolvePass s (PhysicsWorld.collisions w)) as [has s1].
  simpl in H1. destruct has; simpl; [| exact H1].
  rewrite IH; [exact H1 |]. rewrite H1.
  destruct H as [H | [Hcols Hnone]]; [now left | right].
  destruct (Nat.ltb i _); [| now split].
  split; [| exact Hnone]. simpl. now apply detectFrom_apart.
Qed.

(** A loop that visits the bodies of a list and rewrites the visited one
    by [f] applies [f] to a body once per occurrence in the list. *)
Lemma fold_visit (f : RigidBody.t -> RigidBody.t) (visit : Store -> BodyRef -> Store) :
  (forall s r b, visit s r b = if Nat.eqb b r then f (s b) else s b) ->
  forall l s b,
    fold_left visit l s b = Nat.iter (count_occ Nat.eq_dec l b) f (s b).
Proof.
  intros Hv. induction l as [| r l IH]; intros s b; simpl; [reflexivity |].
  rewrite IH, Hv. destruct (Nat.eq_dec r b) as [-> | Hne].
  - rewrite Nat.eqb_refl. simpl. now rewrite <- Nat.iter_succ_r.
  - destruct (Nat.eqb b r) eqn:E; [| reflexivity].
    apply Nat.eqb_eq in E. congruence.
Qed.

Lemma iter_fixed (f : RigidBody.t -> RigidBody.t) (x : RigidBody.t) (n : nat) :
  f x = x -> Nat.iter n f x = x.
Proof. intros H. induction n as [| n IH]; simpl; [reflexivity | now rewrite IH]. Qed.

Lemma applyGravityTo_at (w : PhysicsWorld.t) (s : Store) (r b : BodyRef) :
  PhysicsWorld.applyGravityTo w s r b = if Nat.eqb b r then gravityOn w (s b) else s b.
Proof.
  unfold PhysicsWorld.applyGravityTo, gravityOn, upd.
  destruct (Nat.eqb b r) eqn:E.
  - apply Nat.eqb_eq in E. subst. destruct (_ && _); [| reflexivity].
    now rewrite Nat.eqb_refl.
  - destruct (_ && _); [| reflexivity]. now rewrite E.
Qed.

Lemma applyGravity_at (w : PhysicsWorld.t) (s : Store) (b : BodyRef) :
  PhysicsWorld.applyGravity w s b
  = Nat.iter (count_occ Nat.eq_dec (PhysicsWorld.rigidbodies w) b) (gravityOn w) (s b).
Proof.
  unfold PhysicsWorld.applyGravity.
  apply (fold_visit (gravityOn w)). apply applyGravityTo_at.
Qed.

Lemma integrateAll_at (w : PhysicsWorld.t) (dt : R) (s : Store) (b : BodyRef) :
  PhysicsWorld.integrateAll w dt s b
  = Nat.iter (count_occ Nat.eq_dec (PhysicsWorld.rigidbodies w) b)
      (fun body => RigidBody.integrate body dt) (s b).
Proof.
  unfold PhysicsWorld.integrateAll.
  apply (fold_visit (fun body => RigidBody.integrate body dt)).
  intros s0 r b0. unfold upd. destruct (Nat.eqb b0 r) eqn:E; [| reflexivity].
  apply Nat.eqb_eq in E. now subst.
Qed.

Lemma gravityOn_static (w : PhysicsWorld.t) (body : RigidBody.t) :
  RigidBody.isStatic body = true -> gravityOn w body = body.
Proof.
  intros H. unfold gravityOn. rewrite H.
  now rewrite andb_false_r.
Qed.

Lemma integrate_static (body : RigidBody.t) (dt : R) :
  RigidBody.isStatic body = true -> RigidBody.integrate body dt = body.
Proof. intros H. unfold RigidBody.integrate. now rewrite H. Qed.

Lemma runForceOps_static (body : RigidBody.t) (ops : list ForceOp) :
  RigidBody.isStatic body = true -> runForceOps body ops = body.
Proof.
  intros H. unfold runForceOps. induction ops as [| op ops IH]; simpl; [reflexivity |].
  assert (E : applyForceOp body op = body).
  { destruct op; simpl;
      unfold RigidBody.addForce, RigidBody.addForceAtPoint, RigidBody.addTorque;
      now rewrite H. }
  now rewrite E.
Qed.

(** What a sub-update does to a body that is static, or that no registered
    collider sits on: only gravity and integration reach it. *)
Lemma fixedUpdate_at (heap : ColliderHeap) (w : PhysicsWorld.t) (s : Store) (dt : R)
    (b : BodyRef) :
  RigidBody.isStatic (s b) = true \/ hasNoCollider heap w b ->
  snd (PhysicsWorld.fixedUpdate heap w s dt) b
  = PhysicsWorld.integrateAll w dt (PhysicsWorld.applyGravity w s) b.
Proof.
  intros H. unfold PhysicsWorld.fixedUpdate, PhysicsWorld.resolveCollisions.
  apply resolveIterations_frame.
  destruct H as [H | H].
  - left. rewrite integrateAll_at, applyGravity_at.
    rewrite (iter_fixed (gravityOn w)) by now apply gravityOn_static.
    rewrite iter_fixed by now apply integrate_static.
    exact H.
  - right. split; [| exact H]. simpl. now apply detectFrom_apart.
Qed.

Lemma fixedUpdate_static (heap : ColliderHeap) (w : PhysicsWorld.t) (s : Store) (dt : R)
    (b : BodyRef) :
  RigidBody.isStatic (s b) = true ->
  snd (PhysicsWorld.fixedUpdate heap w s dt) b = s b.
Proof.
  intros H. rewrite fixedUpdate_at by now left.
  rewrite integrateAll_at, applyGravity_at.
  rewrite (iter_fixed (gravityOn w)) by now apply gravityOn_static.
  now rewrite iter_fixed by now apply integrate_static.
Qed.

Lemma stepLoop_static (heap : ColliderHeap) (n k : nat) (w : PhysicsWorld.t) (s : Store)
    (b : BodyRef) :
  RigidBody.isStatic (s b) = true ->
  snd (snd (PhysicsWorld.stepLoop heap n k w s)) b = s b.
Proof.
  revert k w s. induction n as [| n IH]; intros k w s H; [reflexivity |].
  rewrite stepLoop_subUpdate. destruct (_ && _); [| reflexivity].
  assert (H1 : snd (subUpdate heap (w, s)) b = s b).
  { unfold subUpdate. simpl.
    pose proof (fixedUpdate_static heap w s (PhysicsWorld.timeStep w) b H) as E.
    destruct (PhysicsWorld.fixedUpdate heap w s (PhysicsWorld.timeStep w)). exact E. }
  rewrite IH; [exact H1 | now rewrite H1].
Qed.

(** C3.  A body with [isStatic = true] (registered or not) has the same
    position and velocity after [step(dt)] as before, whatever forces and
    torques were applied to it through [addForce], [addForceAtPoint] and
    [addTorque] before the step, and whatever colliders, collisions and
    other bodies the world holds. *)
Theorem static_body_unmoved (heap : ColliderHeap) (w : PhysicsWorld.t) (s : Store)
    (b : BodyRef) (applied : list ForceOp) (dt : R) :
  RigidBody.isStatic (s b) = true ->
  let s0 := upd s b (runForceOps (s b) applied) in
  let s' := snd (PhysicsWorld.step heap w s0 dt) in
  RigidBody.position (s' b) = RigidBody.position (s b) /\
  RigidBody.velocity (s' b) = RigidBody.velocity (s b).
Proof.
  intros H. simpl.
  assert (H0 : upd s b (runForceOps (s b) applied) b = s b).
  { rewrite upd_eq. now apply runForceOps_static. }
  unfold PhysicsWorld.step, PhysicsWorld.stepCount.
  rewrite stepLoop_static; rewrite H0; auto.
Qed.

Lemma static_body_unmoved_witness :
  let s' :=
    snd (PhysicsWorld.step groundHeap groundWorld
           (upd groundStore 0%nat
              (runForceOps (groundStore 0%nat)
                 [AddForce (Vector3D.mk 0 50 0); AddTorque (Vector3D.mk 1 0 0)]))
           (1 / 60)) in
  RigidBody.position (s' 0%nat) = Vector3D.zero /\
  RigidBody.velocity (s' 0%nat) = Vector3D.zero.
Proof.
  exact (static_body_unmoved groundHeap groundWorld groundStore 0%nat
           [AddForce (Vector3D.mk 0 50 0); AddTorque (Vector3D.mk 1 0 0)] (1 / 60)
           eq_refl).
Defined.

(** ** Resolving one collision *)

Lemma velocityAlongNormal_separated (s : Store) (c : Collision.t) :
  velocityAlongNormal
    (PhysicsWorld.separateObjects s (Collision.bodyA c) (Collision.bodyB c)
       (Collision.contactNormal c) (Collision.penetrationDepth c)) c
  = velocityAlongNormal s c.
Proof.
  unfold velocityAlongNormal. now rewrite !separateObjects_velocity.
Qed.

(** The boolean that [resolveCollision] returns. *)
Lemma resolveCollision_result (s : Store) (c : Collision.t) :
  fst (PhysicsWorld.resolveCollision s c)
  = negb (bothStatic s c)
    && negb (Num.leb (Collision.penetrationDepth c) 0.001)
    && negb (Num.gtb (velocityAlongNormal s c) 0).
Proof.
  rewrite <- (velocityAlongNormal_separated s c).
  unfold PhysicsWorld.resolveCollision, bothStatic, velocityAlongNormal.
  destruct (_ && _); [reflexivity |].
  destruct (Num.leb _ _); [reflexivity |]. cbv zeta.
  destruct (Num.gtb _ 0); reflexivity.
Qed.

(** The store that [resolveCollision] leaves when it returns before the
    impulse. *)
Lemma resolveCollision_skipped (s : Store) (c : Collision.t) :
  velocityAlongNormal s c > 0 ->
  snd (PhysicsWorld.resolveCollision s c)
  = if bothStatic s c || Num.leb (Collision.penetrationDepth c) 0.001 then s
    else PhysicsWorld.separateObjects s (Collision.bodyA c) (Collision.bodyB c)
           (Collision.contactNormal c) (Collision.penetrationDepth c).
Proof.
  intros Hv. rewrite <- (velocityAlongNormal_separated s c) in Hv.
  apply num_gtb_true in Hv.
  unfold PhysicsWorld.resolveCollision, bothStatic, velocityAlongNormal in *.
  destruct (_ && _); [reflexivity |].
  destruct (Num.leb _ _); [reflexivity |]. cbv zeta. simpl orb. cbv iota.
  now rewrite Hv.
Qed.

Lemma resting_velocityAlongNormal : velocityAlongNormal restingStore restingContact = 0.
Proof. unfold velocityAlongNormal, Vector3D.dot; simpl. ring. Qed.

(** C2 as stated fails when the normal component of the relative velocity
    is exactly zero: the source tests [velocityAlongNormal > 0], so the
    impulse branch runs and [resolveCollision] returns [true]. *)
Lemma resolveCollision_zero_velocity_counterexample :
  velocityAlongNormal restingStore restingContact >= 0 /\
  fst (PhysicsWorld.resolveCollision restingStore restingContact) = true.
Proof.
  split.
  - rewrite resting_velocityAlongNormal. lra.
  - rewrite resolveCollision_result, resting_velocityAlongNormal.
    replace (Num.leb (Collision.penetrationDepth restingContact) 0.001) with false
      by (symmetry; apply num_leb_false; simpl; lra).
    replace (Num.gtb 0 0) with false by (symmetry; apply num_gtb_false; lra).
    reflexivity.
Qed.

(** C2, amended.  When the relative velocity (B - A) has a strictly positive
    component along the contact normal, [resolveCollision] returns [false]
    and no body's velocity changes; if the collision passes the two entry
    guards (not both bodies static, penetration above 0.001) the store is
    exactly the one [separateObjects] produces, and otherwise the store is
    unchanged.  When the component is zero or negative and the guards pass,
    [resolveCollision] returns [true]. *)
Theorem resolveCollision_separating (s : Store) (c : Collision.t) :
  let r := PhysicsWorld.resolveCollision s c in
  let separated :=
    PhysicsWorld.separateObjects s (Collision.bodyA c) (Collision.bodyB c)
      (Collision.contactNormal c) (Collision.penetrationDepth c) in
  (velocityAlongNormal s c > 0 ->
   fst r = false /\
   (forall b, RigidBody.velocity (snd r b) = RigidBody.velocity (s b)) /\
   (bothStatic s c = false -> Collision.penetrationDepth c > 0.001 -> snd r = separated) /\
   (bothStatic s c = true \/ Collision.penetrationDepth c <= 0.001 -> snd r = s)) /\
  (velocityAlongNormal s c <= 0 ->
   bothStatic s c = false -> Collision.penetrationDepth c > 0.001 -> fst r = true).
Proof.
  simpl. split.
  - intros Hv. split; [| split; [| split]].
    + rewrite resolveCollision_result.
      apply num_gtb_true in Hv. rewrite Hv. now rewrite andb_false_r.
    + intros b. rewrite (resolveCollision_skipped s c Hv).
      destruct (_ || _); [reflexivity | apply separateObjects_velocity].
    + intros Hs Hp. rewrite (resolveCollision_skipped s c Hv), Hs.
      replace (Num.leb (Collision.penetrationDepth c) 0.001) with false
        by (symmetry; apply num_leb_false; lra).
      reflexivity.
    + intros H. rewrite (resolveCollision_skipped s c Hv).
      destruct H as [H | H].
      * now rewrite H.
      * apply num_leb_true in H. rewrite H. now rewrite orb_true_r.
  - intros Hv Hs Hp. rewrite resolveCollision_result, Hs.
    replace (Num.leb (Collision.penetrationDepth c) 0.001) with false
      by (symmetry; apply num_leb_false; lra).
    replace (Num.gtb (velocityAlongNormal s c) 0) with false
      by (symmetry; apply num_gtb_false; lra).
    reflexivity.
Qed.

Lemma separating_velocityAlongNormal :
  velocityAlongNormal separatingStore restingContact = 1.
Proof. unfold velocityAlongNormal, Vector3D.dot; simpl. ring. Qed.

Lemma resolveCollision_separating_witness :
  fst (PhysicsWorld.resolveCollision separatingStore restingContact) = false /\
  RigidBody.velocity (snd (PhysicsWorld.resolveCollision separatingStore restingContact) 1%nat)
  = Vector3D.mk 0 1 0 /\
  snd (PhysicsWorld.resolveCollision separatingStore restingContact)
  = PhysicsWorld.separateObjects separatingStore 0%nat 1%nat (Vector3D.mk 0 1 0) 0.1 /\
  fst (PhysicsWorld.resolveCollision restingStore restingContact) = true.
Proof.
  destruct (resolveCollision_separating separatingStore restingContact) as [Hpos _].
  destruct (resolveCollision_separating restingStore restingContact) as [_ Hzero].
  assert (Hv : velocityAlongNormal separatingStore restingContact > 0)
    by (rewrite separating_velocityAlongNormal; lra).
  assert (Hp : Collision.penetrationDepth restingContact > 0.001) by (simpl; lra).
  destruct (Hpos Hv) as (Hfalse & Hvel & Hsep & _).
  split; [exact Hfalse |]. split; [exact (Hvel 1%nat) |].
  split; [exact (Hsep eq_refl Hp) |].
  apply Hzero; [rewrite resting_velocityAlongNormal; lra | reflexivity | exact Hp].
Defined.

(** ** One sub-update under gravity *)

(** A registered dynamic body of mass 1 with no collider, at rest and with
    no pending force, in a world of gravity (0,10,0): after one sub-update of
    duration [dt] its vertical velocity is [10 dt] and its height has grown
    by [10 dt dt]. *)
Lemma fixedUpdate_gravity_body (heap : ColliderHeap) (w : PhysicsWorld.t) (s : Store)
    (dt : R) (b : BodyRef) :
  PhysicsWorld.gravity w = Vector3D.mk 0 10 0 ->
  In b (PhysicsWorld.rigidbodies w) ->
  NoDup (PhysicsWorld.rigidbodies w) ->
  hasNoCollider heap w b ->
  RigidBody.isStatic (s b) = false ->
  RigidBody.isKinematic (s b) = false ->
  RigidBody.useGravity (s b) = true ->
  RigidBody.mass (s b) = 1 ->
  RigidBody.inverseMass (s b) = 1 ->
  RigidBody.velocity (s b) = Vector3D.zero ->
  RigidBody.forces (s b) = [] ->
  let s' := snd (PhysicsWorld.fixedUpdate heap w s dt) in
  Vector3D.y (RigidBody.velocity (s' b)) = 10 * dt /\
  Vector3D.y (RigidBody.position (s' b))
  = Vector3D.y (RigidBody.position (s b)) + 10 * (dt * dt).
Proof.
  intros Hg Hin Hnd Hnc Hst Hki Hug Hm Him Hv Hf. simpl.
  rewrite fixedUpdate_at by now right.
  rewrite integrateAll_at, applyGravity_at.
  rewrite (proj1 (NoDup_count_occ' Nat.eq_dec (PhysicsWorld.rigidbodies w)) Hnd b Hin).
  simpl Nat.iter. unfold gravityOn. rewrite Hst, Hki, Hug, Hg, Hm. simpl andb. cbv iota.
  destruct (s b) as [pos vel acc rot av aa m im re fr dr ad st ki ug fs ts].
  simpl in *. subst.
  unfold RigidBody.integrate, RigidBody.addForce. simpl.
  destruct (Num.gtb _ 0); simpl; split; ring.
Qed.

(** C7 as stated fails for a body that does not start at height 0: the
    sub-update adds [10 dt dt] to the height it had. *)
Lemma gravity_position_counterexample :
  RigidBody.mass (liftedStore 0%nat) = 1 /\
  RigidBody.useGravity (liftedStore 0%nat) = true /\
  RigidBody.isStatic (liftedStore 0%nat) = false /\
  RigidBody.isKinematic (liftedStore 0%nat) = false /\
  RigidBody.velocity (liftedStore 0%nat) = Vector3D.zero /\
  PhysicsWorld.gravity gravityWorld = Vector3D.mk 0 10 0 /\
  In 0%nat (PhysicsWorld.rigidbodies gravityWorld) /\
  PhysicsWorld.colliders gravityWorld = [] /\
  Vector3D.y (RigidBody.position
                (snd (PhysicsWorld.fixedUpdate sphereHeap gravityWorld liftedStore 1) 0%nat))
  <> 10 * (1 * 1).
Proof.
  repeat split; try reflexivity; try (simpl; tauto).
  destruct (fixedUpdate_gravity_body sphereHeap gravityWorld liftedStore 1 0%nat)
    as [_ Hp]; try reflexivity.
  - simpl; tauto.
  - simpl. constructor; [simpl; tauto | constructor].
  - intros c [].
  - simpl. unfold Num.gtb. destruct (Rgt_dec 1 0); lra.
  - rewrite Hp. simpl. lra.
Qed.

(** C7, amended.  For a dynamic body of mass 1 (inverse mass 1) with
    [useGravity = true], zero initial velocity, no pending force and initial
    [position.y = 0],
    registered (once) in a world with gravity (0,10,0) in which no collider
    sits on it: after one sub-update of duration [dt], [velocity.y] is
    [10 dt] and [position.y] is [10 dt dt]. *)
Theorem gravity_sub_update (heap : ColliderHeap) (w : PhysicsWorld.t) (s : Store)
    (dt : R) (b : BodyRef) :
  PhysicsWorld.gravity w = Vector3D.mk 0 10 0 ->
  In b (PhysicsWorld.rigidbodies w) ->
  NoDup (PhysicsWorld.rigidbodies w) ->
  hasNoCollider heap w b ->
  RigidBody.isStatic (s b) = false ->
  RigidBody.isKinematic (s b) = false ->
  RigidBody.useGravity (s b) = true ->
  RigidBody.mass (s b) = 1 ->
  RigidBody.inverseMass (s b) = 1 ->
  RigidBody.velocity (s b) = Vector3D.zero ->
  RigidBody.forces (s b) = [] ->
  Vector3D.y (RigidBody.position (s b)) = 0 ->
  let s' := snd (PhysicsWorld.fixedUpdate heap w s dt) in
  Vector3D.y (RigidBody.velocity (s' b)) = 10 * dt /\
  Vector3D.y (RigidBody.position (s' b)) = 10 * (dt * dt).
Proof.
  intros Hg Hin Hnd Hnc Hst Hki Hug Hm Him Hv Hf Hy.
  destruct (fixedUpdate_gravity_body heap w s dt b Hg Hin Hnd Hnc Hst Hki Hug Hm Him Hv Hf)
    as [H1 H2].
  simpl. split; [exact H1 |]. rewrite H2, Hy. ring.
Qed.

Lemma new_unit_inverseMass (p : Vector3D.t) : RigidBody.inverseMass (RigidBody.new 1 p) = 1.
Proof. simpl. unfold Num.gtb. destruct (Rgt_dec 1 0); lra. Qed.

Lemma gravity_sub_update_witness :
  let s' := snd (PhysicsWorld.fixedUpdate sphereHeap gravityWorld originStore (1 / 60)) in
  Vector3D.y (RigidBody.velocity (s' 0%nat)) = 10 * (1 / 60) /\
  Vector3D.y (RigidBody.position (s' 0%nat)) = 10 * (1 / 60 * (1 / 60)).
Proof.
  apply (gravity_sub_update sphereHeap gravityWorld originStore (1 / 60) 0%nat);
    try reflexivity.
  - simpl. tauto.
  - simpl. constructor; [simpl; tauto | constructor].
  - intros c [].
  - apply new_unit_inverseMass.
Defined.

(** ** The substep loop of [step] *)

(** Every world reached from [new PhysicsWorld()] through the public
    methods has one of the two positive time steps. *)
Lemma runWorldOps_timeStep (heap : ColliderHeap) (s : Store) (ops : list WorldOp) :
  0 < PhysicsWorld.timeStep (fst (runWorldOps heap (PhysicsWorld.new, s) ops)).
Proof.
  assert (H : PhysicsWorld.timeStep (fst (PhysicsWorld.new, s)) = 1 / 60 \/
              PhysicsWorld.timeStep (fst (PhysicsWorld.new, s)) = 1 / 120)
    by (left; reflexivity).
  assert (G : forall ws,
             (PhysicsWorld.timeStep (fst ws) = 1 / 60 \/
              PhysicsWorld.timeStep (fst ws) = 1 / 120) ->
             0 < PhysicsWorld.timeStep (fst (runWorldOps heap ws ops))).
  { unfold runWorldOps. induction ops as [| op ops IH]; intros ws Hws; simpl.
    - destruct Hws as [-> | ->]; lra.
    - apply IH. destruct ws as [w s0]. destruct op; simpl in *; try exact Hws.
      + unfold PhysicsWorld.addRigidBody. now destruct (negb _).
      + unfold PhysicsWorld.addCollider.
        destruct (negb _); [| exact Hws]. destruct (Num.geb _ _); [exact Hws |].
        unfold PhysicsWorld.addRigidBody. now destruct (negb _).
      + destruct (step_world heap w s0 deltaTime) as (cs & acc & Hw). rewrite Hw. exact Hws.
      + destruct enable; simpl; auto. }
  now apply G.
Qed.

Lemma iter_subUpdate_fields (heap : ColliderHeap) (m : nat) (w : PhysicsWorld.t)
    (s : Store) :
  PhysicsWorld.timeStep (fst (Nat.iter m (subUpdate heap) (w, s))) = PhysicsWorld.timeStep w /\
  PhysicsWorld.maxSubSteps (fst (Nat.iter m (subUpdate heap) (w, s)))
  = PhysicsWorld.maxSubSteps w /\
  PhysicsWorld.accumulator (fst (Nat.iter m (subUpdate heap) (w, s)))
  = Nat.iter m (fun a => a - PhysicsWorld.timeStep w) (PhysicsWorld.accumulator w).
Proof.
  induction m as [| m (IHt & IHm & IHa)]; [simpl; auto |].
  rewrite !Nat.iter_succ.
  destruct (Nat.iter m (subUpdate heap) (w, s)) as [w1 s1].
  destruct (subUpdate_world heap w1 s1) as [cs Hw1]. rewrite Hw1.
  simpl in *. rewrite IHt, IHa. auto.
Qed.

(** The loop of [step] as a trace: it runs [m] sub-updates, each entered
    with the accumulator at least [timeStep], and stops at the cap or with
    the accumulator below [timeStep]. *)
Lemma stepLoop_trace (heap : ColliderHeap) (n k : nat) (w : PhysicsWorld.t) (s : Store) :
  (k + n = PhysicsWorld.maxSubSteps w)%nat ->
  exists m : nat,
    fst (PhysicsWorld.stepLoop heap n k w s) = (k + m)%nat /\
    (m <= n)%nat /\
    snd (PhysicsWorld.stepLoop heap n k w s) = Nat.iter m (subUpdate heap) (w, s) /\
    (forall i : nat, (i < m)%nat ->
       PhysicsWorld.accumulator (fst (Nat.iter i (subUpdate heap) (w, s)))
       >= PhysicsWorld.timeStep w) /\
    (m = n \/
     PhysicsWorld.accumulator (fst (snd (PhysicsWorld.stepLoop heap n k w s)))
     < PhysicsWorld.timeStep w).
Proof.
  revert k w s. induction n as [| n IH]; intros k w s Hk.
  - exists 0%nat. simpl. repeat split; auto; intros i Hi; lia.
  - rewrite stepLoop_subUpdate.
    destruct (Num.geb (PhysicsWorld.accumulator w) (PhysicsWorld.timeStep w)) eqn:Hge.
    + replace (Nat.ltb k (PhysicsWorld.maxSubSteps w)) with true
        by (symmetry; apply Nat.ltb_lt; lia).
      cbn [andb].
      destruct (subUpdate_world heap w s) as [cs Hw1].
      destruct (subUpdate heap (w, s)) as [w1 s1] eqn:Hsub.
      cbn [fst snd] in *.
      assert (Hts : PhysicsWorld.timeStep w1 = PhysicsWorld.timeStep w)
        by (rewrite Hw1; reflexivity).
      destruct (IH (S k) w1 s1) as (m & Hm & Hle & Hiter & Hguard & Hexit).
      { rewrite Hw1. simpl. lia. }
      exists (S m). rewrite Nat.iter_succ_r, Hsub.
      split; [rewrite Hm; lia |]. split; [lia |]. split; [exact Hiter |]. split.
      * intros [| i] Hi.
        -- simpl. now apply num_geb_true.
        -- rewrite Nat.iter_succ_r, Hsub, <- Hts. apply Hguard. lia.
      * destruct Hexit as [-> | Hlt]; [left; reflexivity | right; now rewrite <- Hts].
    + cbn [andb]. exists 0%nat. simpl.
      split; [lia |]. split; [lia |]. split; [reflexivity |]. split.
      * intros i Hi. lia.
      * right. now apply num_geb_false.
Qed.

(** C8 as stated fails for a call that leaves the accumulator negative:
    [step(-1)] on a new world runs no sub-update, while
    [min(floor((0 + -1) / (1/60)), 5)] is -60. *)
Lemma step_negative_counterexample :
  Z.of_nat (fst (PhysicsWorld.stepCount sphereHeap PhysicsWorld.new originStore (-1)))
  <> Z.min (Zfloor ((PhysicsWorld.accumulator PhysicsWorld.new + -1)
                    / PhysicsWorld.timeStep PhysicsWorld.new))
           (Z.of_nat (PhysicsWorld.maxSubSteps PhysicsWorld.new)).
Proof.
  unfold PhysicsWorld.stepCount. simpl PhysicsWorld.maxSubSteps.
  rewrite stepLoop_subUpdate.
  replace (Num.geb _ _) with false by (symmetry; apply num_geb_false; simpl; lra).
  simpl.
  replace ((0 + -1) / (1 / 60)) with (IZR (-60)) by (field_simplify; lra).
  rewrite ZfloorZ. lia.
Qed.

(** C8, amended.  A call [step(dt)] with accumulator [acc] runs [n]
    sub-updates, each a [fixedUpdate(timeStep)] followed by
    [accumulator -= timeStep], where [n] is fixed by the loop guard:
    [n <= maxSubSteps]; the accumulator is at least [timeStep] before each
    of the [n] sub-updates; afterwards [n = maxSubSteps] or the accumulator
    is below [timeStep]; and [n = 0] when [acc + dt < timeStep], a negative
    total included.  The accumulator afterwards is [acc + dt] with
    [timeStep] subtracted [n] times, so time beyond the cap stays in it. *)
Theorem step_substeps (heap : ColliderHeap) (w : PhysicsWorld.t) (s : Store) (dt : R) :
  let total := PhysicsWorld.accumulator w + dt in
  let start := (PhysicsWorld.set_accumulator w total, s) in
  let r := PhysicsWorld.stepCount heap w s dt in
  let n := fst r in
  (n <= PhysicsWorld.maxSubSteps w)%nat /\
  snd r = Nat.iter n (subUpdate heap) start /\
  (forall i : nat, (i < n)%nat ->
     PhysicsWorld.accumulator (fst (Nat.iter i (subUpdate heap) start))
     >= PhysicsWorld.timeStep w) /\
  (n = PhysicsWorld.maxSubSteps w \/
   PhysicsWorld.accumulator (fst (snd r)) < PhysicsWorld.timeStep w) /\
  (total < PhysicsWorld.timeStep w -> n = 0%nat) /\
  PhysicsWorld.accumulator (fst (snd r))
  = Nat.iter n (fun a => a - PhysicsWorld.timeStep w) total.
Proof.
  cbv zeta. unfold PhysicsWorld.stepCount.
  set (total := PhysicsWorld.accumulator w + dt).
  set (w0 := PhysicsWorld.set_accumulator w total).
  change (PhysicsWorld.maxSubSteps w0) with (PhysicsWorld.maxSubSteps w).
  destruct (stepLoop_trace heap (PhysicsWorld.maxSubSteps w) 0 w0 s eq_refl)
    as (m & Hm & Hle & Hiter & Hguard & Hexit).
  change (PhysicsWorld.timeStep w0) with (PhysicsWorld.timeStep w) in Hguard, Hexit.
  simpl in Hm. rewrite Hm.
  split; [exact Hle |]. split; [exact Hiter |]. split; [exact Hguard |].
  split; [exact Hexit |]. split.
  - intros Hsmall. destruct m as [| m]; [reflexivity |].
    pose proof (Hguard 0%nat (Nat.lt_0_succ m)) as H0. simpl in H0. lra.
  - rewrite Hiter.
    destruct (iter_subUpdate_fields heap m w0 s) as (_ & _ & Hacc). exact Hacc.
Qed.

Lemma step_substeps_witness :
  let r := PhysicsWorld.stepCount sphereHeap PhysicsWorld.new originStore (1 / 100) in
  let r' := PhysicsWorld.stepCount sphereHeap PhysicsWorld.new originStore (1 / 5) in
  fst r = 0%nat /\ PhysicsWorld.accumulator (fst (snd r)) = 0 + 1 / 100 /\
  fst r' = 5%nat /\ PhysicsWorld.accumulator (fst (snd r')) >= 1 / 60.
Proof.
  destruct (step_substeps sphereHeap PhysicsWorld.new originStore (1 / 100))
    as (_ & _ & _ & _ & Hzero & Hacc).
  assert (Hn : fst (PhysicsWorld.stepCount sphereHeap PhysicsWorld.new originStore (1 / 100))
               = 0%nat)
    by (apply Hzero; simpl; lra).
  destruct (step_substeps sphereHeap PhysicsWorld.new originStore (1 / 5))
    as (Hle & _ & _ & Hexit & _ & Hacc').
  cbv zeta.
  set (n := fst (PhysicsWorld.stepCount sphereHeap PhysicsWorld.new originStore (1 / 5))) in *.
  change (PhysicsWorld.maxSubSteps PhysicsWorld.new) with 5%nat in Hle, Hexit.
  assert (Hfive : n = 5%nat).
  { destruct Hexit as [Hcap | Hbelow]; [exact Hcap |].
    exfalso. rewrite Hacc' in Hbelow.
    destruct n as [| [| [| [| [| k]]]]];
      [| | | | | assert (Hk : k = 0%nat) by lia; rewrite Hk in Hbelow];
      simpl in Hbelow; lra. }
  split; [exact Hn |]. split; [rewrite Hacc, Hn; reflexivity |].
  split; [exact Hfive |]. rewrite Hacc', Hfive. simpl. lra.
Defined.

(** * Further properties of the code *)

(** ** Vector3D *)

Lemma sum_squares_nonneg (a b c : R) : 0 <= a * a + b * b + c * c.
Proof. nra. Qed.

Lemma magnitude_squared (v : Vector3D.t) :
  Vector3D.magnitude v * Vector3D.magnitude v = Vector3D.magnitudeSquared v.
Proof.
  unfold Vector3D.magnitude, Vector3D.magnitudeSquared.
  apply sqrt_sqrt, sum_squares_nonneg.
Qed.

Lemma magnitude_nonneg (v : Vector3D.t) : 0 <= Vector3D.magnitude v.
Proof. apply sqrt_pos. Qed.

Lemma normalize_val_zero (v : Vector3D.t) :
  Vector3D.magnitude v = 0 -> Vector3D.normalize_val v = Vector3D.zero.
Proof.
  intros H. unfold Vector3D.normalize_val, Vector3D.normalize.
  apply num_eqb_true in H. now rewrite H.
Qed.

(** X2.  The cross product changes sign when its operands are swapped, and
    the cross product with the zero vector, on either side, is the zero
    vector. *)
Theorem cross_antisymmetric (a b : Vector3D.t) :
  Vector3D.cross b a = Vector3D.multiply (Vector3D.cross a b) (-1) /\
  Vector3D.cross a Vector3D.zero = Vector3D.zero /\
  Vector3D.cross Vector3D.zero a = Vector3D.zero.
Proof.
  unfold Vector3D.cross, Vector3D.multiply, Vector3D.zero. simpl.
  repeat split; f_equal; ring.
Qed.

(** X3.  [equals] with a tolerance that is zero or negative is false for
    every pair of vectors, even for a vector and itself; with a positive
    tolerance it holds for a vector and itself and does not depend on the
    order of the two vectors. *)
Theorem equals_tolerance (a v : Vector3D.t) (epsilon : R) :
  (epsilon <= 0 -> Vector3D.equals a v epsilon = false) /\
  (0 < epsilon -> Vector3D.equals a a epsilon = true) /\
  Vector3D.equals a v epsilon = Vector3D.equals v a epsilon.
Proof.
  unfold Vector3D.equals. repeat split.
  - intros He.
    replace (Num.ltb (Rabs (Vector3D.x a - Vector3D.x v)) epsilon) with false; [reflexivity |].
    symmetry. apply num_ltb_false.
    pose proof (Rabs_pos (Vector3D.x a - Vector3D.x v)). lra.
  - intros He.
    rewrite !Rminus_diag, Rabs_R0.
    replace (Num.ltb 0 epsilon) with true by (symmetry; now apply num_ltb_true).
    reflexivity.
  - now rewrite (Rabs_minus_sym (Vector3D.x a)), (Rabs_minus_sym (Vector3D.y a)),
      (Rabs_minus_sym (Vector3D.z a)).
Qed.

Lemma equals_tolerance_witness :
  Vector3D.equals (Vector3D.mk 1 2 3) (Vector3D.mk 1 2 3) 0 = false /\
  Vector3D.equals (Vector3D.mk 1 2 3) (Vector3D.mk 1 2 3) 1e-6 = true.
Proof.
  destruct (equals_tolerance (Vector3D.mk 1 2 3) (Vector3D.mk 1 2 3) 0) as (H0 & _ & _).
  destruct (equals_tolerance (Vector3D.mk 1 2 3) (Vector3D.mk 1 2 3) 1e-6) as (_ & H1 & _).
  split; [apply H0 | apply H1]; lra.
Defined.

(** ** Quaternion *)

(** X5.  The identity quaternion is neutral for [multiply] on both sides
    and [rotateVector] by it returns the vector itself; [conjugate] applied
    twice returns the quaternion itself. *)
Theorem quaternion_identity_neutral (a : Quaternion.t) (v : Vector3D.t) :
  Quaternion.multiply Quaternion.identity a = a /\
  Quaternion.multiply a Quaternion.identity = a /\
  Quaternion.rotateVector Quaternion.identity v = v /\
  Quaternion.conjugate (Quaternion.conjugate a) = a.
Proof.
  destruct a as [aw ax ay az]. destruct v as [vx vy vz].
  unfold Quaternion.rotateVector, Quaternion.conjugate, Quaternion.multiply,
    Quaternion.identity.
  simpl. repeat split; f_equal; ring.
Qed.

(** X9.  [fromAxisAngle] with an axis of zero length returns
    [(cos(angle/2), 0, 0, 0)], since [normalize] hands back the zero vector;
    with the angle 0 it returns the identity quaternion whatever the axis. *)
Theorem fromAxisAngle_zero_axis (axis : Vector3D.t) (angle : R) :
  (Vector3D.magnitude axis = 0 ->
   Quaternion.fromAxisAngle axis angle = Quaternion.mk (cos (angle * 0.5)) 0 0 0) /\
  Quaternion.fromAxisAngle axis 0 = Quaternion.identity.
Proof.
  split.
  - intros H. unfold Quaternion.fromAxisAngle. rewrite (normalize_val_zero axis H). simpl.
    f_equal; ring.
  - unfold Quaternion.fromAxisAngle, Quaternion.identity. cbv zeta.
    replace (0 * 0.5) with 0 by lra. rewrite sin_0, cos_0.
    f_equal; ring.
Qed.

Lemma fromAxisAngle_zero_axis_witness :
  Quaternion.fromAxisAngle Vector3D.zero 1 = Quaternion.mk (cos (1 * 0.5)) 0 0 0.
Proof.
  destruct (fromAxisAngle_zero_axis Vector3D.zero 1) as [Hzero _].
  apply Hzero. exact magnitude_zero.
Defined.

(** ** RigidBody *)

(** X11.  For a kinematic body that is not static, [integrate] ignores the
    pending forces and torques: whatever they are, the acceleration fields
    are kept, the velocity grows by [acceleration * dt], the position by the
    new velocity times [dt], and both pending lists are emptied. *)
Theorem integrate_kinematic (b : RigidBody.t) (dt : R)
    (fs ts : list Vector3D.t) :
  RigidBody.isStatic b = false ->
  RigidBody.isKinematic b = true ->
  let b' := RigidBody.integrate b dt in
  RigidBody.integrate (RigidBody.set_torques (RigidBody.set_forces b fs) ts) dt = b' /\
  RigidBody.acceleration b' = RigidBody.acceleration b /\
  RigidBody.angularAcceleration b' = RigidBody.angularAcceleration b /\
  RigidBody.velocity b'
  = Vector3D.add (RigidBody.velocity b) (Vector3D.multiply (RigidBody.acceleration b) dt) /\
  RigidBody.position b'
  = Vector3D.add (RigidBody.position b) (Vector3D.multiply (RigidBody.velocity b') dt) /\
  RigidBody.forces b' = [] /\ RigidBody.torques b' = [].
Proof.
  intros Hs Hk. destruct b. simpl in Hs, Hk. subst.
  unfold RigidBody.integrate. simpl.
  match goal with
  | |- context [if Num.gtb ?m 0 then _ else _] => destruct (Num.gtb m 0)
  end; simpl; repeat split; reflexivity.
Qed.

Lemma integrate_kinematic_witness :
  let b := RigidBody.set_velocity (RigidBody.makeKinematic (RigidBody.new 1 Vector3D.zero))
             (Vector3D.mk 1 0 0) in
  RigidBody.integrate (RigidBody.set_torques (RigidBody.set_forces b [Vector3D.mk 0 9 0]) []) 1
  = RigidBody.integrate b 1 /\
  RigidBody.forces (RigidBody.integrate b 1) = [].
Proof.
  destruct (integrate_kinematic
              (RigidBody.set_velocity (RigidBody.makeKinematic (RigidBody.new 1 Vector3D.zero))
                 (Vector3D.mk 1 0 0))
              1 [Vector3D.mk 0 9 0] [] eq_refl eq_refl) as (H1 & _ & _ & _ & _ & H2 & _).
  split; [exact H1 | exact H2].
Defined.

(** X12.  A body that is not kinematic, at rest (zero linear and angular velocity) and with no
    pending force or torque is still at rest after [integrate]: position,
    velocity, angular velocity and rotation are unchanged. *)
Theorem integrate_at_rest (b : RigidBody.t) (dt : R) :
  RigidBody.isKinematic b = false ->
  RigidBody.velocity b = Vector3D.zero ->
  RigidBody.angularVelocity b = Vector3D.zero ->
  RigidBody.forces b = [] ->
  RigidBody.torques b = [] ->
  let b' := RigidBody.integrate b dt in
  RigidBody.position b' = RigidBody.position b /\
  RigidBody.velocity b' = Vector3D.zero /\
  RigidBody.angularVelocity b' = Vector3D.zero /\
  RigidBody.rotation b' = RigidBody.rotation b.
Proof.
  intros Hk Hv Hw Hf Ht. destruct b as [pos vel acc rot av aa m im re fr dr ad st ki ug fs ts].
  simpl in *. subst.
  unfold RigidBody.integrate. simpl. destruct st; [auto |]. simpl.
  unfold RigidBody.sumVectors, Vector3D.multiply, Vector3D.add, Vector3D.zero. simpl.
  set (k1 := - dr * Vector3D.magnitude _).
  set (k2 := - ad * Vector3D.magnitude _).
  assert (Hzero : forall k, Vector3D.mk (0 + (0 + 0 * k) * im * dt) (0 + (0 + 0 * k) * im * dt)
                              (0 + (0 + 0 * k) * im * dt) = Vector3D.mk 0 0 0)
    by (intros k; f_equal; ring).
  rewrite !Hzero.
  replace (Num.gtb (Vector3D.magnitude (Vector3D.mk 0 0 0)) 0) with false
    by (symmetry; apply num_gtb_false;
        change (Vector3D.mk 0 0 0) with Vector3D.zero; rewrite magnitude_zero; lra).
  simpl. repeat split; try reflexivity.
  destruct pos as [px py pz]. simpl. f_equal; ring.
Qed.

Lemma integrate_at_rest_witness :
  RigidBody.position (RigidBody.integrate (RigidBody.new 2 (Vector3D.mk 1 2 3)) (1 / 60))
  = Vector3D.mk 1 2 3.
Proof.
  apply (integrate_at_rest (RigidBody.new 2 (Vector3D.mk 1 2 3)) (1 / 60));
    reflexivity.
Defined.

(** X13.  A cloned kinematic or static body of positive mass does not keep
    the zero inverse mass of the original: [clone] gives it
    [inverseMass = 1 / mass] while copying the flag. *)
Theorem clone_loses_zero_inverseMass (b : RigidBody.t) :
  RigidBody.mass b > 0 ->
  RigidBody.inverseMass (RigidBody.clone (RigidBody.makeKinematic b)) = 1 / RigidBody.mass b /\
  RigidBody.isKinematic (RigidBody.clone (RigidBody.makeKinematic b)) = true /\
  RigidBody.inverseMass (RigidBody.clone (RigidBody.makeStatic b)) = 1 / RigidBody.mass b /\
  RigidBody.isStatic (RigidBody.clone (RigidBody.makeStatic b)) = true /\
  RigidBody.inverseMass (RigidBody.clone (RigidBody.makeStatic b)) <> 0.
Proof.
  intros Hm. destruct b. simpl in *.
  apply num_gtb_true in Hm. rewrite Hm. repeat split.
  apply inverse_of_positive. now apply num_gtb_true.
Qed.

Lemma clone_loses_zero_inverseMass_witness :
  RigidBody.inverseMass
    (RigidBody.clone (RigidBody.makeStatic (RigidBody.new 2 Vector3D.zero))) = 1 / 2.
Proof.
  apply (clone_loses_zero_inverseMass (RigidBody.new 2 Vector3D.zero)).
  simpl. lra.
Defined.


(** ** AABB and the narrow phase *)

Lemma intersects_iff (a b : AABB.t) :
  AABB.intersects a b = true <->
  Vector3D.x (AABB.min a) <= Vector3D.x (AABB.max b) /\
  Vector3D.x (AABB.max a) >= Vector3D.x (AABB.min b) /\
  Vector3D.y (AABB.min a) <= Vector3D.y (AABB.max b) /\
  Vector3D.y (AABB.max a) >= Vector3D.y (AABB.min b) /\
  Vector3D.z (AABB.min a) <= Vector3D.z (AABB.max b) /\
  Vector3D.z (AABB.max a) >= Vector3D.z (AABB.min b).
Proof.
  unfold AABB.intersects.
  rewrite !andb_true_iff, !num_leb_true, !num_geb_true. tauto.
Qed.

Lemma containsPoint_iff (a : AABB.t) (p : Vector3D.t) :
  AABB.containsPoint a p = true <->
  Vector3D.x (AABB.min a) <= Vector3D.x p <= Vector3D.x (AABB.max a) /\
  Vector3D.y (AABB.min a) <= Vector3D.y p <= Vector3D.y (AABB.max a) /\
  Vector3D.z (AABB.min a) <= Vector3D.z p <= Vector3D.z (AABB.max a).
Proof.
  unfold AABB.containsPoint.
  rewrite !andb_true_iff, !num_leb_true, !num_geb_true. intuition lra.
Qed.

Lemma intersects_comm (a b : AABB.t) : AABB.intersects a b = AABB.intersects b a.
Proof. apply eq_true_iff_eq. rewrite !intersects_iff. intuition lra. Qed.

Lemma intersects_expand (a b : AABB.t) (amount : R) :
  0 <= amount -> AABB.intersects a b = true ->
  AABB.intersects (AABB.expand a amount) (AABB.expand b amount) = true.
Proof.
  intros Ha H. apply intersects_iff in H. apply intersects_iff. simpl. intuition lra.
Qed.

(** X14.  [intersects] does not depend on the order of the two boxes, a
    well-formed box intersects itself and contains its center, and two
    boxes that intersect still intersect after both are expanded by the
    same non-negative amount. *)
Theorem intersects_symmetric_expand (a b : AABB.t) (amount : R) :
  AABB.intersects a b = AABB.intersects b a /\
  (wellFormed a -> AABB.intersects a a = true /\
                   AABB.containsPoint a (AABB.getCenter a) = true) /\
  (0 <= amount -> AABB.intersects a b = true ->
   AABB.intersects (AABB.expand a amount) (AABB.expand b amount) = true).
Proof.
  split; [| split].
  - apply intersects_comm.
  - unfold wellFormed. intros H. split.
    + apply intersects_iff. intuition lra.
    + apply containsPoint_iff. unfold AABB.getCenter. simpl. intuition lra.
  - apply intersects_expand.
Qed.

Lemma intersects_symmetric_expand_witness :
  let a := AABB.mk (Vector3D.mk 0 0 0) (Vector3D.mk 1 1 1) in
  let b := AABB.mk (Vector3D.mk 1 1 1) (Vector3D.mk 2 2 2) in
  AABB.containsPoint a (AABB.getCenter a) = true /\
  AABB.intersects (AABB.expand a 0.01) (AABB.expand b 0.01) = true.
Proof.
  destruct (intersects_symmetric_expand
              (AABB.mk (Vector3D.mk 0 0 0) (Vector3D.mk 1 1 1))
              (AABB.mk (Vector3D.mk 1 1 1) (Vector3D.mk 2 2 2)) 0.01) as (_ & Hwf & Hexp).
  split.
  - apply Hwf. unfold wellFormed. simpl. lra.
  - apply Hexp; [lra |]. apply intersects_iff. simpl. lra.
Defined.

Lemma clamp_bounds (lo hi c : R) :
  lo <= hi -> lo <= Rmax lo (Rmin c hi) <= hi.
Proof.
  intros H. split; [apply Rmax_l |].
  apply Rmax_lub; [exact H | apply Rmin_r].
Qed.

Lemma clamp_inside (lo hi c : R) : lo <= c <= hi -> Rmax lo (Rmin c hi) = c.
Proof.
  intros [H1 H2]. rewrite Rmin_left by exact H2. now apply Rmax_right.
Qed.

Lemma boxAABB_wellFormed (s : Store) (r : BodyRef) (size : Vector3D.t) :
  0 <= Vector3D.x size -> 0 <= Vector3D.y size -> 0 <= Vector3D.z size ->
  wellFormed (Collider.boxAABB s r size).
Proof. intros Hx Hy Hz. unfold wellFormed. simpl. lra. Qed.

(** X15.  The closest point used by the box-sphere test lies inside a
    well-formed box, and is the sphere center itself when the center is
    inside the box. *)
Theorem closestPoint_inside (aabb : AABB.t) (center : Vector3D.t) :
  wellFormed aabb ->
  AABB.containsPoint aabb (Collider.closestPoint aabb center) = true /\
  (AABB.containsPoint aabb center = true -> Collider.closestPoint aabb center = center).
Proof.
  unfold wellFormed. intros (Hx & Hy & Hz). split.
  - apply containsPoint_iff. unfold Collider.closestPoint. simpl.
    repeat split; apply clamp_bounds; assumption.
  - intros Hc. apply containsPoint_iff in Hc. destruct Hc as (Cx & Cy & Cz).
    unfold Collider.closestPoint. destruct center as [cx cy cz]. simpl in *.
    f_equal; apply clamp_inside; assumption.
Qed.

Lemma closestPoint_inside_witness :
  Collider.closestPoint (AABB.mk (Vector3D.mk 0 0 0) (Vector3D.mk 2 2 2)) (Vector3D.mk 1 1 1)
  = Vector3D.mk 1 1 1.
Proof.
  destruct (closestPoint_inside (AABB.mk (Vector3D.mk 0 0 0) (Vector3D.mk 2 2 2))
              (Vector3D.mk 1 1 1)) as [_ H].
  - unfold wellFormed. simpl. lra.
  - apply H. apply containsPoint_iff. simpl. lra.
Defined.

Lemma subtract_self_magnitude (v : Vector3D.t) :
  Vector3D.magnitude (Vector3D.subtract v v) = 0.
Proof.
  unfold Vector3D.magnitude, Vector3D.subtract. simpl.
  replace ((Vector3D.x v - Vector3D.x v) * (Vector3D.x v - Vector3D.x v)
           + (Vector3D.y v - Vector3D.y v) * (Vector3D.y v - Vector3D.y v)
           + (Vector3D.z v - Vector3D.z v) * (Vector3D.z v - Vector3D.z v)) with 0 by ring.
  apply sqrt_0.
Qed.

(** X16.  When the center of a sphere of non-negative radius lies inside
    the world AABB of a box, [box.checkCollision(sphere)] reports a contact
    whose normal is the zero vector, whose penetration depth is the whole
    radius and whose contact point is the sphere center. *)
Theorem box_sphere_center_inside (s : Store) (box sphere : Collider.t)
    (size : Vector3D.t) (radius : R) :
  Collider.shape box = Collider.Box size ->
  Collider.shape sphere = Collider.Sphere radius ->
  0 <= radius ->
  AABB.containsPoint (Collider.getAABB s box)
    (RigidBody.position (s (Collider.rigidbody sphere))) = true ->
  Collider.checkCollision s box sphere
  = Some (Collision.mk (Collider.rigidbody box) (Collider.rigidbody sphere)
            (RigidBody.position (s (Collider.rigidbody sphere)))
            Vector3D.zero radius).
Proof.
  intros Hbox Hsphere Hr Hin.
  unfold Collider.checkCollision, Collider.getAABB in *. rewrite Hbox in *. rewrite Hsphere.
  unfold Collider.boxCheckSphereCollision.
  assert (Hcp : Collider.closestPoint
                  (Collider.boxAABB s (Collider.rigidbody box) size)
                  (RigidBody.position (s (Collider.rigidbody sphere)))
                = RigidBody.position (s (Collider.rigidbody sphere))).
  { apply containsPoint_iff in Hin. destruct Hin as (Cx & Cy & Cz).
    unfold Collider.closestPoint.
    destruct (RigidBody.position (s (Collider.rigidbody sphere))) as [cx cy cz].
    simpl in *. f_equal; apply clamp_inside; assumption. }
  rewrite Hcp. unfold Vector3D.distanceTo. rewrite subtract_self_magnitude.
  replace (Num.gtb 0 radius) with false by (symmetry; apply num_gtb_false; exact Hr).
  rewrite normalize_val_zero by apply subtract_self_magnitude.
  f_equal. f_equal. ring.
Qed.

Lemma box_sphere_center_inside_witness :
  Collider.checkCollision originStore
    (Collider.newBox 0%nat (Vector3D.mk 2 2 2)) (Collider.newSphere 1%nat 1)
  = Some (Collision.mk 0%nat 1%nat Vector3D.zero Vector3D.zero 1).
Proof.
  apply (box_sphere_center_inside originStore
           (Collider.newBox 0%nat (Vector3D.mk 2 2 2)) (Collider.newSphere 1%nat 1)
           (Vector3D.mk 2 2 2) 1 eq_refl eq_refl).
  - lra.
  - apply containsPoint_iff. simpl. lra.
Defined.

Lemma component_le_magnitude (v : Vector3D.t) :
  Rabs (Vector3D.x v) <= Vector3D.magnitude v /\
  Rabs (Vector3D.y v) <= Vector3D.magnitude v /\
  Rabs (Vector3D.z v) <= Vector3D.magnitude v.
Proof.
  unfold Vector3D.magnitude.
  repeat split; rewrite <- sqrt_Rsqr_abs; apply sqrt_le_1_alt; unfold Rsqr; nra.
Qed.

Lemma difference_bounds (a b d : R) : Rabs (a - b) <= d -> a - d <= b <= a + d.
Proof.
  intros H. pose proof (Rle_abs (a - b)). pose proof (Rle_abs (- (a - b))).
  rewrite Rabs_Ropp in *. lra.
Qed.

Lemma box_sphere_broad (s : Store) (box : BodyRef) (size : Vector3D.t)
    (sphere : BodyRef) (radius : R) (c : Collision.t) :
  0 <= Vector3D.x size -> 0 <= Vector3D.y size -> 0 <= Vector3D.z size ->
  Collider.boxCheckSphereCollision s box size sphere radius = Some c ->
  AABB.intersects (Collider.boxAABB s box size) (Collider.sphereAABB s sphere radius) = true.
Proof.
  intros Hx Hy Hz. unfold Collider.boxCheckSphereCollision.
  destruct (Num.gtb _ radius) eqn:Hd; [discriminate |]. intros _.
  apply num_gtb_false in Hd. unfold Vector3D.distanceTo in Hd.
  destruct (component_le_magnitude
              (Vector3D.subtract (RigidBody.position (s sphere))
                 (Collider.closestPoint (Collider.boxAABB s box size)
                    (RigidBody.position (s sphere))))) as (Dx & Dy & Dz).
  pose proof (boxAABB_wellFormed s box size Hx Hy Hz) as (Wx & Wy & Wz).
  unfold Collider.closestPoint in *. simpl in Dx, Dy, Dz.
  pose proof (clamp_bounds _ _ (Vector3D.x (RigidBody.position (s sphere))) Wx) as Bx.
  pose proof (clamp_bounds _ _ (Vector3D.y (RigidBody.position (s sphere))) Wy) as By.
  pose proof (clamp_bounds _ _ (Vector3D.z (RigidBody.position (s sphere))) Wz) as Bz.
  apply difference_bounds in Dx, Dy, Dz.
  apply intersects_iff. simpl in *. lra.
Qed.

Lemma narrow_implies_broad (s : Store) (a b : Collider.t) (c : Collision.t) :
  nonNegativeExtent a -> nonNegativeExtent b ->
  Collider.checkCollision s a b = Some c ->
  AABB.intersects (Collider.getAABB s a) (Collider.getAABB s b) = true.
Proof.
  unfold nonNegativeExtent, Collider.checkCollision, Collider.getAABB.
  destruct (Collider.shape a) as [sa | ra], (Collider.shape b) as [sb | rb];
    intros Ha Hb H.
  - unfold Collider.checkBoxCollision in H.
    destruct (AABB.intersects _ _); [reflexivity | discriminate].
  - destruct Ha as (Hx & Hy & Hz). eapply box_sphere_broad; eassumption.
  - destruct (Collider.boxCheckSphereCollision s (Collider.rigidbody b) sb
                (Collider.rigidbody a) ra) as [c0 |] eqn:E; [| discriminate].
    destruct Hb as (Hx & Hy & Hz).
    rewrite intersects_comm. eapply box_sphere_broad; eassumption.
  - unfold Collider.sphereCheckSphereCollision in H.
    destruct (Num.geb _ _) eqn:Hd; [discriminate |].
    apply num_geb_false in Hd. unfold Vector3D.distanceTo in Hd.
    destruct (component_le_magnitude
                (Vector3D.subtract (RigidBody.position (s (Collider.rigidbody a)))
                   (RigidBody.position (s (Collider.rigidbody b))))) as (Dx & Dy & Dz).
    simpl in Dx, Dy, Dz. apply difference_bounds in Dx, Dy, Dz.
    apply intersects_iff. simpl. lra.
Qed.

(** X17.  The broad phase never hides a contact: for two colliders with
    non-negative extents, what [detectCollisions] records for the pair is
    exactly what the narrow phase reports (when not both bodies are static
    and the penetration exceeds 0.001), so the AABB test with its margin of
    0.01 only saves work. *)
Theorem broad_phase_conservative (heap : ColliderHeap) (s : Store) (a b : ColliderRef) :
  nonNegativeExtent (heap a) -> nonNegativeExtent (heap b) ->
  PhysicsWorld.detectPair heap s a b = narrowPhaseOnly heap s a b.
Proof.
  intros Ha Hb. unfold PhysicsWorld.detectPair, narrowPhaseOnly.
  destruct (_ && _); [reflexivity |].
  destruct (Collider.checkCollision s (heap a) (heap b)) as [c |] eqn:E.
  - pose proof (narrow_implies_broad s (heap a) (heap b) c Ha Hb E) as Hi.
    rewrite intersects_expand by (lra || exact Hi). reflexivity.
  - now destruct (negb _).
Qed.

Lemma broad_phase_conservative_witness :
  PhysicsWorld.detectPair groundHeap groundStore 0%nat 1%nat
  = narrowPhaseOnly groundHeap groundStore 0%nat 1%nat.
Proof.
  apply broad_phase_conservative; unfold nonNegativeExtent; simpl; lra.
Defined.

(** The six signed unit vectors along the axes. *)
Lemma axis_normal_cases (n : Vector3D.t) (d : Vector3D.t) :
  n = Vector3D.mk 1 0 0 \/ n = Vector3D.mk 0 1 0 \/ n = Vector3D.mk 0 0 1 ->
  let n' := if Num.ltb (Vector3D.dot n d) 0 then Vector3D.multiply n (-1) else n in
  Vector3D.magnitudeSquared n' = 1 /\ 0 <= Vector3D.dot n' d.
Proof.
  intros H. simpl.
  destruct (Num.ltb (Vector3D.dot n d) 0) eqn:E;
    [apply num_ltb_true in E | apply num_ltb_false in E];
    destruct H as [-> | [-> | ->]];
    unfold Vector3D.magnitudeSquared, Vector3D.dot, Vector3D.multiply in *; simpl in *;
    split; lra.
Qed.

(** X18.  When [checkBoxCollision] reports a contact between two boxes:
    the normal is a unit vector, it does not point away from the second
    box ([normal . (posB - posA) >= 0]), the penetration depth is not
    negative when both sizes are non-negative, and the test with the boxes
    swapped also reports a contact, with the same penetration depth and
    contact point. *)
Theorem box_box_contact (s : Store) (a : BodyRef) (sa : Vector3D.t) (b : BodyRef)
    (sb : Vector3D.t) (c : Collision.t) :
  Collider.checkBoxCollision s a sa b sb = Some c ->
  Vector3D.magnitude (Collision.contactNormal c) = 1 /\
  0 <= Vector3D.dot (Collision.contactNormal c)
         (Vector3D.subtract (RigidBody.position (s b)) (RigidBody.position (s a))) /\
  (0 <= Vector3D.x sa -> 0 <= Vector3D.y sa -> 0 <= Vector3D.z sa ->
   0 <= Vector3D.x sb -> 0 <= Vector3D.y sb -> 0 <= Vector3D.z sb ->
   0 <= Collision.penetrationDepth c) /\
  exists c', Collider.checkBoxCollision s b sb a sa = Some c' /\
             Collision.penetrationDepth c' = Collision.penetrationDepth c /\
             Collision.contactPoint c' = Collision.contactPoint c.
Proof.
  unfold Collider.checkBoxCollision.
  destruct (AABB.intersects (Collider.boxAABB s a sa) (Collider.boxAABB s b sb)) eqn:Hi;
    [| discriminate].
  rewrite <- (intersects_comm (Collider.boxAABB s a sa)), Hi.
  simpl negb. cbv iota. cbv zeta.
  rewrite (Rmin_comm (Vector3D.x (AABB.max (Collider.boxAABB s b sb)))),
          (Rmax_comm (Vector3D.x (AABB.min (Collider.boxAABB s b sb)))),
          (Rmin_comm (Vector3D.y (AABB.max (Collider.boxAABB s b sb)))),
          (Rmax_comm (Vector3D.y (AABB.min (Collider.boxAABB s b sb)))),
          (Rmin_comm (Vector3D.z (AABB.max (Collider.boxAABB s b sb)))),
          (Rmax_comm (Vector3D.z (AABB.min (Collider.boxAABB s b sb)))).
  apply intersects_iff in Hi.
  set (ox := Rmin _ _ - Rmax _ _) in *.
  set (oy := Rmin (Vector3D.y _) _ - Rmax _ _) in *.
  set (oz := Rmin (Vector3D.z _) _ - Rmax _ _) in *.
  simpl Vector3D.x. simpl Vector3D.y. simpl Vector3D.z.
  assert (Hpos : 0 <= Vector3D.x sa -> 0 <= Vector3D.y sa -> 0 <= Vector3D.z sa ->
                 0 <= Vector3D.x sb -> 0 <= Vector3D.y sb -> 0 <= Vector3D.z sb ->
                 0 <= ox /\ 0 <= oy /\ 0 <= oz).
  { intros. unfold ox, oy, oz. simpl in *.
    repeat split;
      match goal with
      | |- 0 <= Rmin ?p ?q - Rmax ?u ?v =>
          assert (u <= p /\ u <= q /\ v <= p /\ v <= q) as (? & ? & ? & ?) by lra;
          assert (Rmax u v <= Rmin p q)
            by (apply Rmax_lub; apply Rmin_glb; assumption);
          lra
      end. }
  clearbody ox oy oz.
  destruct (Num.ltb oy ox) eqn:E1;
    [apply num_ltb_true in E1 | apply num_ltb_false in E1];
    match goal with
    | |- context [Num.ltb oz ?m] =>
        destruct (Num.ltb oz m) eqn:E2;
        [apply num_ltb_true in E2 | apply num_ltb_false in E2]
    end;
    intros [= <-]; simpl;
    (split; [| split; [| split]]);
    try (eexists; split; [reflexivity | split; [reflexivity |]];
         unfold Vector3D.multiply, Vector3D.add; simpl; f_equal; ring);
    try (intros; destruct Hpos as (? & ? & ?); auto; lra);
    match goal with
    | |- Vector3D.magnitude (if Num.ltb (Vector3D.dot ?n ?d) 0 then _ else _) = 1 =>
        destruct (axis_normal_cases n d) as [Hm _]; [tauto |];
        rewrite <- magnitude_squared in Hm;
        pose proof (magnitude_nonneg
                      (if Num.ltb (Vector3D.dot n d) 0 then Vector3D.multiply n (-1) else n));
        nra
    | |- 0 <= Vector3D.dot (if Num.ltb (Vector3D.dot ?n ?d) 0 then _ else _) _ =>
        destruct (axis_normal_cases n d) as [_ Hd]; [tauto |]; exact Hd
    end.
Qed.

Lemma overlapping_boxes_collide :
  exists c, Collider.checkBoxCollision originStore 0%nat (Vector3D.mk 2 2 2)
              1%nat (Vector3D.mk 2 2 2) = Some c.
Proof.
  unfold Collider.checkBoxCollision.
  replace (AABB.intersects _ _) with true
    by (symmetry; apply intersects_iff; simpl; lra).
  simpl negb. cbv iota. cbv zeta.
  repeat match goal with
         | |- context [if Num.ltb ?u ?v then _ else _] => destruct (Num.ltb u v)
         end; eexists; reflexivity.
Qed.

Lemma box_box_contact_witness :
  exists c, Collider.checkBoxCollision originStore 0%nat (Vector3D.mk 2 2 2)
              1%nat (Vector3D.mk 2 2 2) = Some c /\
            Vector3D.magnitude (Collision.contactNormal c) = 1 /\
            0 <= Collision.penetrationDepth c.
Proof.
  destruct overlapping_boxes_collide as [c Hc]. exists c.
  destruct (box_box_contact originStore 0%nat (Vector3D.mk 2 2 2) 1%nat
              (Vector3D.mk 2 2 2) c Hc) as (Hn & _ & Hp & _).
  split; [exact Hc |]. split; [exact Hn |].
  apply Hp; simpl; lra.
Defined.

Lemma distanceTo_symmetric (a b : Vector3D.t) :
  Vector3D.distanceTo a b = Vector3D.distanceTo b a.
Proof.
  unfold Vector3D.distanceTo, Vector3D.magnitude, Vector3D.subtract. simpl.
  f_equal. ring.
Qed.

(** X19.  When [checkSphereCollision] reports a contact between two
    spheres: the centers are closer than the sum of the radii, the
    penetration depth is strictly positive and is the sum of the radii
    minus the distance of the centers; when the centers coincide the normal
    is the zero vector; and the test with the spheres swapped reports a
    contact of the same depth. *)
Theorem sphere_sphere_contact (s : Store) (a : BodyRef) (ra : R) (b : BodyRef) (rb : R)
    (c : Collision.t) :
  Collider.sphereCheckSphereCollision s a ra b rb = Some c ->
  let distance :=
    Vector3D.distanceTo (RigidBody.position (s a)) (RigidBody.position (s b)) in
  distance < ra + rb /\
  0 < Collision.penetrationDepth c /\
  Collision.penetrationDepth c = ra + rb - distance /\
  (distance = 0 -> Collision.contactNormal c = Vector3D.zero) /\
  exists c', Collider.sphereCheckSphereCollision s b rb a ra = Some c' /\
             Collision.penetrationDepth c' = Collision.penetrationDepth c.
Proof.
  unfold Collider.sphereCheckSphereCollision.
  rewrite (distanceTo_symmetric (RigidBody.position (s b))), (Rplus_comm rb).
  destruct (Num.geb _ _) eqn:Hd; [discriminate |].
  apply num_geb_false in Hd. intros [= <-]. simpl.
  split; [exact Hd |]. split; [lra |]. split; [reflexivity |]. split.
  - intros Hz. apply normalize_val_zero.
    rewrite distanceTo_symmetric in Hz. exact Hz.
  - eexists. split; reflexivity.
Qed.

Lemma overlapping_spheres_collide :
  Collider.sphereCheckSphereCollision touchingStore 0%nat 1.5 1%nat 1.5 <> None.
Proof.
  unfold Collider.sphereCheckSphereCollision.
  replace (Vector3D.distanceTo (RigidBody.position (touchingStore 0%nat))
             (RigidBody.position (touchingStore 1%nat))) with 2.
  - replace (Num.geb 2 (1.5 + 1.5)) with false by (symmetry; apply num_geb_false; lra).
    discriminate.
  - unfold Vector3D.distanceTo, Vector3D.magnitude. simpl.
    replace ((0 - 2) * (0 - 2) + (0 - 0) * (0 - 0) + (0 - 0) * (0 - 0)) with (2 * 2) by ring.
    rewrite sqrt_square; lra.
Qed.

Lemma sphere_sphere_contact_witness :
  exists c, Collider.sphereCheckSphereCollision touchingStore 0%nat 1.5 1%nat 1.5 = Some c /\
            0 < Collision.penetrationDepth c.
Proof.
  destruct (Collider.sphereCheckSphereCollision touchingStore 0%nat 1.5 1%nat 1.5)
    as [c |] eqn:E.
  - exists c. split; [reflexivity |].
    apply (sphere_sphere_contact touchingStore 0%nat 1.5 1%nat 1.5 c E).
  - exfalso. now apply overlapping_spheres_collide.
Defined.

(** ** PhysicsWorld: detection *)

Lemma detectPair_recorded (heap : ColliderHeap) (w : PhysicsWorld.t) (s : Store)
    (a b : ColliderRef) :
  In a (PhysicsWorld.colliders w) -> In b (PhysicsWorld.colliders w) ->
  Forall (recordedContact heap w s) (PhysicsWorld.detectPair heap s a b) /\
  (List.length (PhysicsWorld.detectPair heap s a b) <= 1)%nat.
Proof.
  intros Ha Hb. unfold PhysicsWorld.detectPair.
  destruct (_ && _) eqn:Hst; [split; [constructor | simpl; lia] |].
  destruct (negb _); [split; [constructor | simpl; lia] |].
  destruct (Collider.checkCollision s (heap a) (heap b)) as [c |] eqn:E;
    [| split; [constructor | simpl; lia]].
  destruct (Num.gtb _ _) eqn:Hp; [| split; [constructor | simpl; lia]].
  split; [| simpl; lia].
  apply checkCollision_bodies in E. destruct E as [EA EB].
  constructor; [| constructor]. unfold recordedContact, bothStatic.
  rewrite EA, EB. split; [now apply num_gtb_true |]. split; [exact Hst |].
  exists a, b. auto.
Qed.

Lemma detectFrom_recorded (heap : ColliderHeap) (w : PhysicsWorld.t) (s : Store)
    (cs : list ColliderRef) :
  (forall c, In c cs -> In c (PhysicsWorld.colliders w)) ->
  Forall (recordedContact heap w s) (PhysicsWorld.detectFrom heap s cs) /\
  (2 * List.length (PhysicsWorld.detectFrom heap s cs)
   <= List.length cs * (List.length cs - 1))%nat.
Proof.
  induction cs as [| a cs IH]; intros H; simpl.
  - split; [constructor | lia].
  - destruct IH as [IHf IHl]; [intros c Hc; apply H; now right |].
    assert (Hrow : Forall (recordedContact heap w s)
                     (flat_map (PhysicsWorld.detectPair heap s a) cs) /\
                   (List.length (flat_map (PhysicsWorld.detectPair heap s a) cs)
                    <= List.length cs)%nat).
    { assert (Hcs : forall c, In c cs -> In c (PhysicsWorld.colliders w))
        by (intros c Hc; apply H; now right).
      assert (Ha : In a (PhysicsWorld.colliders w)) by (apply H; now left).
      clear IHf IHl H. induction cs as [| b cs IHcs]; simpl.
      - split; [constructor | lia].
      - destruct IHcs as [F L]; [intros c Hc; apply Hcs; now right |].
        destruct (detectPair_recorded heap w s a b Ha) as [Fp Lp];
          [apply Hcs; now left |].
        split; [apply Forall_app; now split | rewrite length_app; lia]. }
    destruct Hrow as [Fr Lr].
    split; [apply Forall_app; now split |].
    rewrite length_app. rewrite Nat.sub_0_r. nia.
Qed.

(** X20.  After [detectCollisions], every recorded collision has a
    penetration depth above 0.001, joins the bodies of two registered
    colliders, and does not join two static bodies; and [n] registered
    colliders give at most [n (n - 1) / 2] collisions. *)
Theorem detectCollisions_recorded (heap : ColliderHeap) (w : PhysicsWorld.t) (s : Store) :
  let w' := PhysicsWorld.detectCollisions heap w s in
  Forall (recordedContact heap w s) (PhysicsWorld.collisions w') /\
  (2 * List.length (PhysicsWorld.collisions w')
   <= List.length (PhysicsWorld.colliders w) * (List.length (PhysicsWorld.colliders w) - 1))%nat.
Proof.
  simpl. apply detectFrom_recorded. auto.
Qed.

(** ** PhysicsWorld: registries and configuration *)

Lemma removeFirst_In (l : list nat) (r x : nat) :
  In x (PhysicsWorld.removeFirst l r) -> In x l.
Proof.
  induction l as [| h l IH]; simpl; [auto |].
  destruct (Nat.eqb h r); simpl; intuition.
Qed.

Lemma removeFirst_NoDup (l : list nat) (r : nat) :
  NoDup l -> NoDup (PhysicsWorld.removeFirst l r) /\ ~ In r (PhysicsWorld.removeFirst l r).
Proof.
  induction 1 as [| h l Hh Hl IH]; simpl.
  - split; [constructor | auto].
  - destruct (Nat.eqb h r) eqn:E.
    + apply Nat.eqb_eq in E. subst. auto.
    + apply Nat.eqb_neq in E. destruct IH as [IH1 IH2]. split.
      * constructor; [| exact IH1]. intros Hin. apply Hh. eapply removeFirst_In; eassumption.
      * simpl. intros [-> | Hin]; [now apply E | now apply IH2].
Qed.

Lemma removeFirst_other (l : list nat) (r x : nat) :
  x <> r -> In x l -> In x (PhysicsWorld.removeFirst l r).
Proof.
  intros Hx. induction l as [| h l IH]; simpl; [auto |].
  destruct (Nat.eqb h r) eqn:E.
  - apply Nat.eqb_eq in E. subst. intros [-> | H]; [congruence | exact H].
  - simpl. intuition.
Qed.

Lemma removeFirst_absent (l : list nat) (r : nat) :
  ~ In r l -> PhysicsWorld.removeFirst l r = l.
Proof.
  induction l as [| h l IH]; simpl; [reflexivity |]. intros H.
  destruct (Nat.eqb h r) eqn:E.
  - apply Nat.eqb_eq in E. subst. exfalso. apply H. now left.
  - f_equal. apply IH. intros Hin. apply H. now right.
Qed.

Lemma removeFirst_snoc (l : list nat) (r : nat) :
  ~ In r l -> PhysicsWorld.removeFirst (l ++ [r]) r = l.
Proof.
  induction l as [| h l IH]; simpl; intros H.
  - now rewrite Nat.eqb_refl.
  - destruct (Nat.eqb h r) eqn:E.
    + apply Nat.eqb_eq in E. subst. exfalso. apply H. now left.
    + f_equal. apply IH. intros Hin. apply H. now right.
Qed.

Lemma set_rigidbodies_same (w : PhysicsWorld.t) :
  PhysicsWorld.set_rigidbodies w (PhysicsWorld.rigidbodies w) = w.
Proof. now destruct w. Qed.

(** X21.  [removeRigidBody]: on a registry without duplicates the body is
    no longer registered afterwards and every other body still is; removing
    a body that is not registered changes nothing; and registering a new
    body and removing it again gives back the world as it was. *)
Theorem removeRigidBody_spec (w : PhysicsWorld.t) (r : BodyRef) :
  (NoDup (PhysicsWorld.rigidbodies w) ->
   ~ In r (PhysicsWorld.rigidbodies (PhysicsWorld.removeRigidBody w r)) /\
   NoDup (PhysicsWorld.rigidbodies (PhysicsWorld.removeRigidBody w r))) /\
  (forall r', r' <> r ->
     (In r' (PhysicsWorld.rigidbodies (PhysicsWorld.removeRigidBody w r))
      <-> In r' (PhysicsWorld.rigidbodies w))) /\
  (~ In r (PhysicsWorld.rigidbodies w) ->
   PhysicsWorld.removeRigidBody w r = w /\
   PhysicsWorld.removeRigidBody (PhysicsWorld.addRigidBody w r) r = w).
Proof.
  split; [| split].
  - intros Hnd. simpl. destruct (removeFirst_NoDup _ r Hnd). auto.
  - intros r' Hne. simpl. split.
    + apply removeFirst_In.
    + now apply removeFirst_other.
  - intros Hin. split.
    + unfold PhysicsWorld.removeRigidBody. rewrite removeFirst_absent by exact Hin.
      apply set_rigidbodies_same.
    + unfold PhysicsWorld.addRigidBody.
      replace (PhysicsWorld.includes (PhysicsWorld.rigidbodies w) r) with false
        by (symmetry; now apply includes_not_In).
      unfold PhysicsWorld.removeRigidBody. simpl.
      rewrite removeFirst_snoc by exact Hin.
      now destruct w.
Qed.

Lemma removeRigidBody_spec_witness :
  PhysicsWorld.removeRigidBody (PhysicsWorld.addRigidBody PhysicsWorld.new 4%nat) 4%nat
  = PhysicsWorld.new /\
  ~ In 0%nat (PhysicsWorld.rigidbodies (PhysicsWorld.removeRigidBody gravityWorld 0%nat)).
Proof.
  destruct (removeRigidBody_spec PhysicsWorld.new 4%nat) as (_ & _ & Hround).
  destruct (removeRigidBody_spec gravityWorld 0%nat) as (Hgone & _ & _).
  split.
  - apply Hround. simpl. tauto.
  - apply Hgone. simpl. constructor; [simpl; tauto | constructor].
Defined.

(** X22.  [removeCollider] does not unregister the body that [addCollider]
    registered: adding a new collider below the cap and removing it again
    restores the collider registry, while the collider's body stays in the
    body registry. *)
Theorem addCollider_removeCollider (heap : ColliderHeap) (w : PhysicsWorld.t)
    (c : ColliderRef) :
  ~ In c (PhysicsWorld.colliders w) ->
  INR (List.length (PhysicsWorld.colliders w)) < PhysicsWorld.maxObjectsPerFrame w ->
  let w' := PhysicsWorld.removeCollider (PhysicsWorld.addCollider heap w c) c in
  PhysicsWorld.colliders w' = PhysicsWorld.colliders w /\
  In (Collider.rigidbody (heap c)) (PhysicsWorld.rigidbodies w') /\
  (~ In (Collider.rigidbody (heap c)) (PhysicsWorld.rigidbodies w) -> w' <> w).
Proof.
  intros Hc Hlt. simpl.
  unfold PhysicsWorld.addCollider.
  replace (PhysicsWorld.includes (PhysicsWorld.colliders w) c) with false
    by (symmetry; now apply includes_not_In).
  replace (Num.geb _ _) with false by (symmetry; now apply num_geb_false).
  simpl negb. cbv iota.
  destruct (addRigidBody_spec
              (PhysicsWorld.set_colliders w (PhysicsWorld.colliders w ++ [c]))
              (Collider.rigidbody (heap c))) as (Hin & _ & _ & Hcol & _).
  unfold PhysicsWorld.removeCollider. simpl. rewrite Hcol. simpl.
  rewrite removeFirst_snoc by exact Hc.
  split; [reflexivity |]. split; [exact Hin |].
  intros Hb Heq. apply Hb. rewrite <- Heq. simpl. exact Hin.
Qed.

Lemma addCollider_removeCollider_witness :
  let w' := PhysicsWorld.removeCollider
              (PhysicsWorld.addCollider sphereHeap PhysicsWorld.new 3%nat) 3%nat in
  PhysicsWorld.colliders w' = [] /\ In 3%nat (PhysicsWorld.rigidbodies w').
Proof.
  destruct (addCollider_removeCollider sphereHeap PhysicsWorld.new 3%nat) as (H1 & H2 & _).
  - simpl. tauto.
  - simpl. lra.
  - split; [exact H1 | exact H2].
Defined.

Lemma applyWorldOp_invariants (heap : ColliderHeap) (ws : PhysicsWorld.t * Store)
    (op : WorldOp) :
  let good (w : PhysicsWorld.t) :=
    NoDup (PhysicsWorld.rigidbodies w) /\ NoDup (PhysicsWorld.colliders w) /\
    (defaultProfile w \/ denseProfile w) in
  good (fst ws) -> good (fst (applyWorldOp heap ws op)).
Proof.
  simpl. destruct ws as [w s]. unfold defaultProfile, denseProfile.
  intros (Hb & Hc & Hp).
  destruct op; simpl in *; auto.
  - destruct (addRigidBody_spec w rigidbody) as (_ & _ & Hnd & Hcol & _).
    rewrite Hcol. split; [auto |]. split; [auto |].
    unfold PhysicsWorld.addRigidBody. now destruct (negb _).
  - destruct (removeFirst_NoDup _ rigidbody Hb). auto.
  - unfold PhysicsWorld.addCollider.
    destruct (PhysicsWorld.includes (PhysicsWorld.colliders w) collider) eqn:Hin;
      simpl; [auto |].
    destruct (Num.geb _ _); [auto |].
    destruct (addRigidBody_spec
                (PhysicsWorld.set_colliders w (PhysicsWorld.colliders w ++ [collider]))
                (Collider.rigidbody (heap collider))) as (_ & _ & Hnd & Hcol & _).
    rewrite Hcol. simpl.
    split; [apply Hnd; exact Hb |].
    split; [apply NoDup_snoc; [exact Hc | now apply includes_not_In] |].
    unfold PhysicsWorld.addRigidBody. now destruct (negb _).
  - destruct (removeFirst_NoDup _ collider Hc). auto.
  - destruct (step_world heap w s deltaTime) as (cs & acc & Hw). rewrite Hw. simpl. auto.
  - split; [constructor | split; [constructor | exact Hp]].
  - destruct enable; simpl; (split; [exact Hb | split; [exact Hc |]]);
      [right | left]; auto.
Qed.

(** X23.  After any sequence of public calls on a new world (with any
    writes to bodies in between), both registries are free of duplicates and
    the triple (timeStep, maxSubSteps, collisionIterations) is one of the
    two profiles (1/60, 5, 8) and (1/120, 8, 12). *)
Theorem world_invariants (heap : ColliderHeap) (s : Store) (ops : list WorldOp) :
  let w := fst (runWorldOps heap (PhysicsWorld.new, s) ops) in
  NoDup (PhysicsWorld.rigidbodies w) /\ NoDup (PhysicsWorld.colliders w) /\
  (defaultProfile w \/ denseProfile w).
Proof.
  simpl.
  assert (H0 : NoDup (PhysicsWorld.rigidbodies (fst (PhysicsWorld.new, s))) /\
               NoDup (PhysicsWorld.colliders (fst (PhysicsWorld.new, s))) /\
               (defaultProfile (fst (PhysicsWorld.new, s)) \/
                denseProfile (fst (PhysicsWorld.new, s)))).
  { simpl. split; [constructor |]. split; [constructor |].
    left. unfold defaultProfile. simpl. auto. }
  revert H0. generalize (PhysicsWorld.new, s). unfold runWorldOps.
  induction ops as [| op ops IH]; intros ws H; simpl; [exact H |].
  apply IH. now apply (applyWorldOp_invariants heap ws op).
Qed.

(** ** PhysicsWorld: the accumulator *)

(** X24.  For a positive [timeStep], [step(dt)] runs at most [maxSubSteps]
    sub-updates; if it ran fewer, the accumulator it leaves is below
    [timeStep]; an accumulator total that is not negative is left not
    negative; and if [accumulator + dt] is below [timeStep] no sub-update
    runs and no body is touched. *)
Theorem step_accumulator_bounds (heap : ColliderHeap) (w : PhysicsWorld.t) (s : Store)
    (dt : R) :
  0 < PhysicsWorld.timeStep w ->
  let r := PhysicsWorld.stepCount heap w s dt in
  (fst r <= PhysicsWorld.maxSubSteps w)%nat /\
  ((fst r < PhysicsWorld.maxSubSteps w)%nat ->
   PhysicsWorld.accumulator (fst (snd r)) < PhysicsWorld.timeStep w) /\
  (0 <= PhysicsWorld.accumulator w + dt -> 0 <= PhysicsWorld.accumulator (fst (snd r))) /\
  (PhysicsWorld.accumulator w + dt < PhysicsWorld.timeStep w ->
   fst r = 0%nat /\ snd (snd r) = s /\
   PhysicsWorld.accumulator (fst (snd r)) = PhysicsWorld.accumulator w + dt).
Proof.
  intros Hts. cbv zeta. unfold PhysicsWorld.stepCount.
  set (total := PhysicsWorld.accumulator w + dt).
  set (w0 := PhysicsWorld.set_accumulator w total).
  change (PhysicsWorld.maxSubSteps w0) with (PhysicsWorld.maxSubSteps w).
  destruct (stepLoop_trace heap (PhysicsWorld.maxSubSteps w) 0 w0 s eq_refl)
    as (m & Hm & Hle & Hiter & Hguard & Hexit).
  change (PhysicsWorld.timeStep w0) with (PhysicsWorld.timeStep w) in Hguard, Hexit.
  simpl in Hm. rewrite Hm.
  split; [exact Hle |]. split; [| split].
  - intros Hlt. destruct Hexit as [-> | Hbelow]; [lia | exact Hbelow].
  - intros Ht. rewrite Hiter. destruct m as [| m]; [exact Ht |].
    destruct (iter_subUpdate_fields heap (S m) w0 s) as (_ & _ & Hacc).
    destruct (iter_subUpdate_fields heap m w0 s) as (_ & _ & Hprev).
    pose proof (Hguard m (Nat.lt_succ_diag_r m)) as Hg.
    rewrite Hacc, Nat.iter_succ. rewrite Hprev in Hg.
    change (PhysicsWorld.timeStep w0) with (PhysicsWorld.timeStep w) in *. lra.
  - intros Hsmall. destruct m as [| m].
    + rewrite Hiter. simpl. repeat split.
    + pose proof (Hguard 0%nat (Nat.lt_0_succ m)) as H0.
      unfold w0 in H0. simpl in H0. exfalso. lra.
Qed.

Lemma step_accumulator_bounds_witness :
  let r := PhysicsWorld.stepCount sphereHeap PhysicsWorld.new originStore (1 / 100) in
  fst r = 0%nat /\ snd (snd r) = originStore /\
  PhysicsWorld.accumulator (fst (snd r)) = 0 + 1 / 100.
Proof.
  assert (Hts : 0 < PhysicsWorld.timeStep PhysicsWorld.new) by (simpl; lra).
  destruct (step_accumulator_bounds sphereHeap PhysicsWorld.new originStore (1 / 100) Hts)
    as (_ & _ & _ & H).
  apply H. simpl. lra.
Defined.

(** ** Resolution: positional correction *)

Lemma set_position_guarded (s : Store) (r : BodyRef) (p : Vector3D.t) (x : BodyRef) :
  exists p', (if negb (RigidBody.isStatic (s r))
              then upd s r (RigidBody.set_position (s r) p) else s) x
             = RigidBody.set_position (s x) p'.
Proof.
  destruct (negb _).
  - unfold upd. destruct (Nat.eqb x r) eqn:E.
    + apply Nat.eqb_eq in E. subst. eauto.
    + exists (RigidBody.position (s x)). now destruct (s x).
  - exists (RigidBody.position (s x)). now destruct (s x).
Qed.

Lemma sameMaterial_refl (s : Store) : sameMaterial s s.
Proof. intros r. auto. Qed.

Lemma sameMaterial_trans (s1 s2 s3 : Store) :
  sameMaterial s1 s2 -> sameMaterial s2 s3 -> sameMaterial s1 s3.
Proof.
  intros H12 H23 r. destruct (H12 r) as (A1 & A2 & A3 & A4 & A5).
  destruct (H23 r) as (B1 & B2 & B3 & B4 & B5).
  repeat split; congruence.
Qed.

Lemma separateObjects_material (s : Store) (a b : BodyRef) (n : Vector3D.t) (pen : R) :
  sameMaterial s (PhysicsWorld.separateObjects s a b n pen).
Proof.
  unfold PhysicsWorld.separateObjects.
  destruct (Num.eqb _ 0); [apply sameMaterial_refl |]. cbv zeta.
  match goal with
  | |- sameMaterial s (if negb (RigidBody.isStatic (?s1 b)) then upd ?s1 b (RigidBody.set_position _ ?v) else _) =>
      apply sameMaterial_trans with s1;
      [ intros r;
        match goal with
        | |- context [(if negb (RigidBody.isStatic (s a)) then upd s a (RigidBody.set_position _ ?u) else s) r] =>
            destruct (set_position_guarded s a u r) as [v' E]
        end; rewrite E; now destruct (s r)
      | intros r; destruct (set_position_guarded s1 b v r) as [v' E]; rewrite E;
        now destruct (s1 r) ]
  end.
Qed.

(** X28.  Positional correction: with a penetration within the slop of
    0.005, or with a total inverse mass of 0, [separateObjects] leaves every
    body as it was; in every case it leaves alone each body other than A
    and B and each static body, and it changes no velocity, mass, inverse
    mass, static flag, restitution or friction. *)
Theorem separateObjects_effect (s : Store) (a b : BodyRef) (n : Vector3D.t) (pen : R) :
  let s' := PhysicsWorld.separateObjects s a b n pen in
  (pen <= 0.005 -> forall r, s' r = s r) /\
  (RigidBody.inverseMass (s a) + RigidBody.inverseMass (s b) = 0 -> forall r, s' r = s r) /\
  (forall r, (RigidBody.isStatic (s r) = true \/ (a <> r /\ b <> r)) -> s' r = s r) /\
  (forall r, RigidBody.velocity (s' r) = RigidBody.velocity (s r)) /\
  sameMaterial s s'.
Proof.
  cbv zeta. split; [| split; [| split; [| split]]].
  - intros Hpen r. unfold PhysicsWorld.separateObjects.
    destruct (Num.eqb _ 0); [reflexivity |]. cbv zeta.
    assert (Hm : Rmax (pen - 0.005) 0 = 0) by (apply Rmax_right; lra).
    rewrite Hm.
    set (t := RigidBody.inverseMass (s a) + RigidBody.inverseMass (s b)).
    assert (Hsub : forall (x : RigidBody.t) (i : R),
               RigidBody.set_position x
                 (Vector3D.subtract (RigidBody.position x)
                    (Vector3D.multiply (Vector3D.multiply n (0 / t * 0.9)) i)) = x).
    { intros x i. destruct x as [[px py pz] ? ? ? ? ? ? ? ? ? ? ? ? ? ? ? ?].
      unfold RigidBody.set_position, Vector3D.subtract, Vector3D.multiply. simpl.
      f_equal. f_equal; unfold Rdiv; ring. }
    assert (Hadd : forall (x : RigidBody.t) (i : R),
               RigidBody.set_position x
                 (Vector3D.add (RigidBody.position x)
                    (Vector3D.multiply (Vector3D.multiply n (0 / t * 0.9)) i)) = x).
    { intros x i. destruct x as [[px py pz] ? ? ? ? ? ? ? ? ? ? ? ? ? ? ? ?].
      unfold RigidBody.set_position, Vector3D.add, Vector3D.multiply. simpl.
      f_equal. f_equal; unfold Rdiv; ring. }
    rewrite Hsub.
    set (s1 := if negb (RigidBody.isStatic (s a)) then upd s a (s a) else s).
    assert (Hs1 : forall x, s1 x = s x).
    { intros x. unfold s1. destruct (negb _); [| reflexivity].
      destruct (Nat.eq_dec a x) as [<- | Hne];
        [apply upd_eq | now apply upd_neq]. }
    rewrite Hadd.
    destruct (negb (RigidBody.isStatic (s1 b))); [| apply Hs1].
    destruct (Nat.eq_dec b r) as [<- | Hne];
      [rewrite upd_eq | rewrite upd_neq by exact Hne]; apply Hs1.
  - intros Hzero r. unfold PhysicsWorld.separateObjects.
    replace (Num.eqb _ 0) with true by (symmetry; now apply num_eqb_true).
    reflexivity.
  - intros r Hr. now apply separateObjects_frame.
  - intros r. apply separateObjects_velocity.
  - apply separateObjects_material.
Qed.

Lemma separateObjects_effect_witness :
  let s' := PhysicsWorld.separateObjects restingStore 0%nat 1%nat (Vector3D.mk 0 1 0) 0.003 in
  s' 0%nat = restingStore 0%nat /\ s' 1%nat = restingStore 1%nat.
Proof.
  destruct (separateObjects_effect restingStore 0%nat 1%nat (Vector3D.mk 0 1 0) 0.003)
    as (Hslop & _).
  assert (Hpen : 0.003 <= 0.005) by lra.
  split; [exact (Hslop Hpen 0%nat) | exact (Hslop Hpen 1%nat)].
Defined.

(** ** PhysicsWorld: queries *)

Lemma queryAABB_fold (heap : ColliderHeap) (s : Store) (aabb : AABB.t)
    (cs : list ColliderRef) (acc : list BodyRef) :
  fold_left
    (fun result collider =>
       if AABB.intersects aabb (Collider.getAABB s (heap collider))
       then result ++ [Collider.rigidbody (heap collider)]
       else result) cs acc
  = acc ++ map (fun c => Collider.rigidbody (heap c))
             (filter (fun c => AABB.intersects aabb (Collider.getAABB s (heap c))) cs).
Proof.
  revert acc. induction cs as [| c cs IH]; intros acc; simpl.
  - now rewrite app_nil_r.
  - rewrite IH. destruct (AABB.intersects _ _); simpl; [| reflexivity].
    now rewrite <- app_assoc.
Qed.

(** X29.  [queryAABB] returns, in registration order, the body of every
    registered collider whose AABB intersects the query box and of no other
    collider: one entry per such collider, so a body backing two
    intersecting colliders is listed twice, and the result is never longer
    than the collider registry. *)
Theorem queryAABB_spec (heap : ColliderHeap) (w : PhysicsWorld.t) (s : Store)
    (aabb : AABB.t) :
  PhysicsWorld.queryAABB heap w s aabb
  = map (fun c => Collider.rigidbody (heap c))
      (filter (fun c => AABB.intersects aabb (Collider.getAABB s (heap c)))
         (PhysicsWorld.colliders w)) /\
  (forall b,
     In b (PhysicsWorld.queryAABB heap w s aabb) <->
     exists c, In c (PhysicsWorld.colliders w) /\ Collider.rigidbody (heap c) = b /\
               AABB.intersects aabb (Collider.getAABB s (heap c)) = true) /\
  (List.length (PhysicsWorld.queryAABB heap w s aabb)
   <= List.length (PhysicsWorld.colliders w))%nat.
Proof.
  assert (E : PhysicsWorld.queryAABB heap w s aabb
              = map (fun c => Collider.rigidbody (heap c))
                  (filter (fun c => AABB.intersects aabb (Collider.getAABB s (heap c)))
                     (PhysicsWorld.colliders w)))
    by (unfold PhysicsWorld.queryAABB; now rewrite queryAABB_fold).
  split; [exact E |]. rewrite E. split.
  - intros b. rewrite in_map_iff. split.
    + intros (c & Hb & Hc). apply filter_In in Hc. exists c. tauto.
    + intros (c & Hc & Hb & Hi). exists c. split; [exact Hb |].
      apply filter_In. tauto.
  - rewrite length_map. apply filter_length_le.
Qed.
